(** * priceandeps: the column-block loader, the period aggregator and the
      growth calculator of [app.py]

    The script reads one wide CSV grid holding several companies side by
    side, cuts it into per-company frames, and for the company, the
    frequency and the year range picked in the sidebar computes the
    last-of-period table and the period-over-period growth table.

    The embedding follows [app.py] top to bottom.  What pandas does inside
    the calls the script makes ([dropna], [to_datetime], [to_numeric],
    [sort_values], [groupby(...).agg('last')], [pct_change], [replace]) is
    written out after the library's documented behaviour; what the library
    decides on text cells (which strings are dates, which are numbers) is a
    parameter of the development. *)

From Stdlib Require Import Ascii String.
From stdpp Require Import gmap strings list pretty.
From Stdlib Require Import ZArith Lia SpecFloat Sorted Permutation.

Local Open Scope Z_scope.

(** ** Python strings: [str.strip] *)

Module PyStr.

(** [str.isspace] on the code points below 256: TAB, LF, VT, FF, CR, the
    four separators FS GS RS US, SPACE, NEL and the no-break space. *)
Definition is_space (c : ascii) : bool :=
  let n := nat_of_ascii c in
  ((9 <=? n) && (n <=? 13) || (28 <=? n) && (n <=? 32)
   || (n =? 133) || (n =? 160))%nat.

Fixpoint lstrip (s : string) : string :=
  match s with
  | EmptyString => EmptyString
  | String c t => if is_space c then lstrip t else s
  end.

Fixpoint rstrip (s : string) : string :=
  match s with
  | EmptyString => EmptyString
  | String c t =>
      match rstrip t with
      | EmptyString => if is_space c then EmptyString else String c EmptyString
      | r => String c r
      end
  end.

(** [s.strip()] *)
Definition strip (s : string) : string := rstrip (lstrip s).

Definition is_empty (s : string) : bool :=
  match s with EmptyString => true | _ => false end.

End PyStr.

(** ** float64 values

    A float64 is an IEEE 754 binary64 number; a missing number in a pandas
    float column is the NaN of that format. *)

Abbreviation float := spec_float (only parsing).

Module F64.
Definition prec : Z := 53.
Definition emax : Z := 1024.

Definition nan : float := S754_nan.
Definition of_Z (z : Z) : float := binary_normalize prec emax z 0 false.
Definition div : float -> float -> float := SFdiv prec emax.
Definition sub : float -> float -> float := SFsub prec emax.
Definition mul : float -> float -> float := SFmul prec emax.

Definition is_nan (x : float) : bool :=
  match x with S754_nan => true | _ => false end.
Definition is_inf (x : float) : bool :=
  match x with S754_infinity _ => true | _ => false end.
(** neither NaN nor an infinity *)
Definition is_finite (x : float) : bool :=
  match x with S754_zero _ | S754_finite _ _ _ => true | _ => false end.
Definition is_zero (x : float) : bool :=
  match x with S754_zero _ => true | _ => false end.
End F64.

(** ** Timestamps and quarterly periods *)

(** A [pandas.Timestamp], by its calendar fields; [nanos] counts the
    nanoseconds since midnight.  [None] at type [option Timestamp] is NaT. *)
Record Timestamp := mkTimestamp {
  year : Z;
  month : Z;
  day : Z;
  nanos : Z
}.

Definition ts_compare (a b : Timestamp) : comparison :=
  match year a ?= year b with
  | Eq => match month a ?= month b with
          | Eq => match day a ?= day b with
                  | Eq => nanos a ?= nanos b
                  | c => c
                  end
          | c => c
          end
  | c => c
  end.

Definition ts_leb (a b : Timestamp) : bool :=
  match ts_compare a b with Gt => false | _ => true end.

(** Order used by [sort_values('Date')]: ascending, NaT last
    ([na_position='last']). *)
Definition date_leb (a b : option Timestamp) : bool :=
  match a, b with
  | _, None => true
  | None, Some _ => false
  | Some x, Some y => ts_leb x y
  end.

(** [Series.dt.year]: the year, NaN for NaT. *)
Definition dt_year (d : option Timestamp) : option Z := year <$> d.

(** A [Period] of frequency ['Q'] is stored as its ordinal, the number of
    quarters since 1970Q1. *)
Definition to_period_Q (t : Timestamp) : Z := (year t - 1970) * 4 + (month t - 1) / 3.

Definition period_year (q : Z) : Z := 1970 + q / 4.
(** quarter number, 1 to 4 *)
Definition period_quarter (q : Z) : Z := q mod 4 + 1.

Definition nanos_per_day : Z := 86400 * 1000000000.

(** [Period.end_time]: the last nanosecond of the quarter. *)
Definition end_time (q : Z) : Timestamp :=
  let m := 3 * period_quarter q in
  {| year := period_year q;
     month := m;
     day := if (m =? 6) || (m =? 9) then 30 else 31;
     nanos := nanos_per_day - 1 |}.

(** ** The raw grid *)

(** A cell of the frame [read_csv] returns: missing (an empty cell, or one
    of the texts the reader takes for a missing value, such as [NA] or
    [n/a]), a number (a column the reader could convert) or the text as it
    stands. *)
Inductive cell :=
  | NA
  | Num (x : float)
  | Str (s : string).

(** [pd.isna] on a cell *)
Definition isna (c : cell) : bool :=
  match c with
  | NA => true
  | Num x => F64.is_nan x
  | Str _ => false
  end.

(** The frame [df]: the column labels ([None] is a NaN label) and the data
    rows.  A row shorter than the header reads as missing cells.  The labels
    are taken as the loop finds them in [df.columns]; for a header cell left
    empty in the file [read_csv] makes up the label [Unnamed: k]. *)
Record RawGrid := mkRawGrid {
  columns : list (option string);
  data : list (list cell)
}.

Definition num_columns (df : RawGrid) : nat := length (columns df).

Definition cell_at (row : list cell) (j : nat) : cell := nth j row NA.

(** ** Exceptions *)

Inductive exn :=
  | ValueError   (* length mismatch when assigning [.columns] *)
  | TypeError.   (* [range] over a NaN year *)

Inductive result (A : Type) :=
  | Ok (a : A)
  | Raise (e : exn).
Arguments Ok {A} a.
Arguments Raise {A} e.

(** ** The per-company frame *)

(** A row of a company frame after lines 47-50: [Date] is a timestamp or NaT,
    [EPS] and [Share Price] are floats (NaN when missing). *)
Record Row := mkRow {
  Date : option Timestamp;
  EPS : float;
  SharePrice : float
}.

(** A row of [df[cols]] once the three columns are renamed. *)
Record RawRow := mkRawRow {
  raw_date : cell;
  raw_eps : cell;
  raw_price : cell
}.

(** What one pass of the loop stores: the key, the positions of [cols]
    in the grid and the frame put in [company_data]. *)
Record Block := mkBlock {
  block_name : string;
  block_cols : list nat;
  block_frame : list Row
}.

Section Loader.

(** [pd.to_datetime(column, errors='coerce')] on one non-missing cell of
    [column]: the timestamp, or [None] when the cell does not parse.  The
    whole column is an argument because pandas fixes the date format from
    the column's content. *)
Variable parse_datetime : list cell -> cell -> option Timestamp.

(** [pd.to_numeric(_, errors='coerce')] on a text cell. *)
Variable parse_float : string -> option float.

Definition to_datetime (column : list cell) : list (option Timestamp) :=
  map (fun c => if isna c then None else parse_datetime column c) column.

Definition to_numeric (c : cell) : float :=
  match c with
  | NA => F64.nan
  | Num x => x
  | Str s => default F64.nan (parse_float s)
  end.

(** [pd.isna(company_name) or company_name.strip() == ''] *)
Definition is_blank (company_name : option string) : bool :=
  match company_name with
  | None => true
  | Some s => PyStr.is_empty (PyStr.strip s)
  end.

(** Positions selected by [df.columns[i:i+3]]: a Python slice stops at the
    end of the index. *)
Definition slice3 (n i : nat) : list nat := seq i (Nat.min 3 (n - i)).

(** [df[cols]], row by row (the labels [read_csv] returns are distinct, so
    selecting by label is selecting by position). *)
Definition select (df : RawGrid) (cols : list nat) : list (list cell) :=
  map (fun row => map (cell_at row) cols) (data df).

(** [company_df.columns = ['Date', 'EPS', 'Share Price']]: pandas raises
    ValueError unless the frame has exactly three columns. *)
Definition rename3 (cols : list nat) (rows : list (list cell)) : result (list RawRow) :=
  if (length cols =? 3)%nat
  then Ok (map (fun r => mkRawRow (cell_at r 0) (cell_at r 1) (cell_at r 2)) rows)
  else Raise ValueError.

(** [dropna(subset=['Date']).reset_index(drop=True)] *)
Definition dropna_date (rows : list RawRow) : list RawRow :=
  List.filter (fun r => negb (isna (raw_date r))) rows.

(** Lines 47-50: drop the rows without a date cell, then coerce the three
    columns. *)
Definition normalize (company_df : list RawRow) : list Row :=
  let kept := dropna_date company_df in
  let dates := to_datetime (map raw_date kept) in
  map (fun '(d, r) => mkRow d (to_numeric (raw_eps r)) (to_numeric (raw_price r)))
      (combine dates kept).

(** The [while i < num_columns] loop of lines 32-56.  [fuel] bounds the
    number of passes; [None] means the bound was too small. *)
Fixpoint scan (fuel : nat) (df : RawGrid) (i : nat) (acc : list Block)
  : option (result (list Block)) :=
  if (num_columns df <=? i)%nat then Some (Ok acc)
  else
    match fuel with
    | O => None
    | S fuel' =>
        let company_name := nth i (columns df) None in
        if is_blank company_name then scan fuel' df (i + 1)%nat acc
        else
          let cols := slice3 (num_columns df) i in
          match rename3 cols (select df cols) with
          | Raise e => Some (Raise e)
          | Ok company_df =>
              let blk := mkBlock (PyStr.strip (default EmptyString company_name))
                                 cols (normalize company_df) in
              scan fuel' df (i + 4)%nat (acc ++ [blk])
          end
    end.

(** Every pass moves [i] forward, so [num_columns] passes are enough. *)
Definition split_blocks (df : RawGrid) : option (result (list Block)) :=
  scan (num_columns df) df 0%nat [].

(** [company_data[name] = company_df], in the order of the passes: a later
    block with the same key replaces the earlier one. *)
Definition company_data (blocks : list Block) : gmap string (list Row) :=
  foldl (fun m b => <[block_name b := block_frame b]> m) ∅ blocks.

End Loader.

(** ** Period Aggregator (lines 86-121) *)

Inductive Frequency := Quarterly | Annual.

(** Comparisons of a [dt.year] value with a scalar.  The year of NaT is NaN,
    and every comparison with NaN is [False]. *)
Definition year_ge (y : option Z) (s : Z) : bool :=
  match y with Some v => s <=? v | None => false end.
Definition year_le (y : option Z) (s : Z) : bool :=
  match y with Some v => v <=? s | None => false end.
Definition year_lt (y : option Z) (s : Z) : bool :=
  match y with Some v => v <? s | None => false end.

(** Line 86: the mask of the year range, both ends included. *)
Definition in_year_range (start_year end_year : Z) (r : Row) : bool :=
  year_ge (dt_year (Date r)) start_year && year_le (dt_year (Date r)) end_year.

Definition filter_years (start_year end_year : Z) (company_df : list Row) : list Row :=
  List.filter (in_year_range start_year end_year) company_df.

(** Line 93: [company_df[company_df['Date'].dt.year < current_year]] *)
Definition before_year (current_year : Z) (r : Row) : bool :=
  year_lt (dt_year (Date r)) current_year.

Definition filter_before (current_year : Z) (company_df : list Row) : list Row :=
  List.filter (before_year current_year) company_df.

(** A company frame with its period column: ['Year'] (line 96) or
    ['Quarter'] (line 108).  The key of a NaT row is missing. *)
Definition KeyedRow : Type := Row * option Z.

Definition year_key (r : Row) : option Z := dt_year (Date r).
Definition quarter_key (r : Row) : option Z := to_period_Q <$> Date r.

Definition add_period (key : Row -> option Z) (company_df : list Row) : list KeyedRow :=
  map (fun r => (r, key r)) company_df.

(** [sort_values('Date')]: ascending on the date, NaT last.  pandas promises
    no order among rows of equal date with its default sort kind; the model
    keeps them in their given order. *)
Fixpoint insert_by {A} (date : A -> option Timestamp) (x : A) (l : list A) : list A :=
  match l with
  | [] => [x]
  | y :: t => if date_leb (date x) (date y) then x :: l else y :: insert_by date x t
  end.

Fixpoint sort_values {A} (date : A -> option Timestamp) (l : list A) : list A :=
  match l with
  | [] => []
  | x :: t => insert_by date x (sort_values date t)
  end.

(** The group keys of [groupby]: the distinct non-missing keys, ascending
    ([sort=True], [dropna=True]). *)
Fixpoint insert_key (k : Z) (ks : list Z) : list Z :=
  match ks with
  | [] => [k]
  | k' :: t =>
      if k <? k' then k :: ks
      else if k =? k' then ks
      else k' :: insert_key k t
  end.

Definition group_keys (keys : list (option Z)) : list Z :=
  foldr (fun k acc => match k with Some k => insert_key k acc | None => acc end) [] keys.

(** The rows of one group, in the order of the frame. *)
Definition group (k : Z) (df : list KeyedRow) : list Row :=
  map fst (List.filter (fun p => bool_decide (snd p = Some k)) df).

(** The ['last'] aggregation of a grouped column: the last value of the
    group that is not missing, missing if there is none. *)
Definition last_valid (xs : list float) : float :=
  foldl (fun acc x => if F64.is_nan x then acc else x) F64.nan xs.

Definition last_valid_date (ds : list (option Timestamp)) : option Timestamp :=
  foldl (fun acc d => match d with Some _ => d | None => acc end) None ds.

(** A row of [aggregated_df]: the group key (['Year'] or ['Quarter']) and
    the three aggregated columns. *)
Record AggRow := mkAggRow {
  Period : Z;
  agg_EPS : float;
  agg_SharePrice : float;
  agg_Date : option Timestamp
}.

(** [groupby(key).agg({'EPS': 'last', 'Share Price': 'last', 'Date': 'last'})
    .reset_index()] *)
Definition groupby_last (df : list KeyedRow) : list AggRow :=
  map (fun k =>
         let g := group k df in
         {| Period := k;
            agg_EPS := last_valid (map EPS g);
            agg_SharePrice := last_valid (map SharePrice g);
            agg_Date := last_valid_date (map Date g) |})
      (group_keys (map snd df)).

(** Line 116: [aggregated_df['Date'] = aggregated_df['Quarter'].dt.end_time] *)
Definition set_quarter_end (aggregated_df : list AggRow) : list AggRow :=
  map (fun a => {| Period := Period a; agg_EPS := agg_EPS a;
                   agg_SharePrice := agg_SharePrice a;
                   agg_Date := Some (end_time (Period a)) |})
      aggregated_df.

(** The frame that is grouped: lines 93-96 for Annual, line 108 for
    Quarterly, on the year-filtered frame of line 86. *)
Definition grouped_frame (data_frequency : Frequency) (current_year : Z)
    (filtered : list Row) : list KeyedRow :=
  match data_frequency with
  | Annual => add_period year_key (filter_before current_year filtered)
  | Quarterly => add_period quarter_key filtered
  end.

(** Lines 98-116: [aggregated_df] before the sort of line 121. *)
Definition aggregate_sorted_groups (data_frequency : Frequency) (current_year : Z)
    (filtered : list Row) : list AggRow :=
  let agg := groupby_last (sort_values (fun p => Date (fst p))
                             (grouped_frame data_frequency current_year filtered)) in
  match data_frequency with
  | Annual => agg
  | Quarterly => set_quarter_end agg
  end.

(** Lines 86-121: [aggregated_df] as it is charted. *)
Definition aggregate (data_frequency : Frequency) (current_year : Z)
    (start_year end_year : Z) (company_df : list Row) : list AggRow :=
  sort_values agg_Date
    (aggregate_sorted_groups data_frequency current_year
       (filter_years start_year end_year company_df)).

(** The grouped frame in the order [groupby] sees it, and the observations
    of one period in that order. *)
Definition sorted_frame (data_frequency : Frequency) (current_year : Z)
    (start_year end_year : Z) (company_df : list Row) : list KeyedRow :=
  sort_values (fun p => Date (fst p))
    (grouped_frame data_frequency current_year
       (filter_years start_year end_year company_df)).

Definition period_group (data_frequency : Frequency) (current_year : Z)
    (start_year end_year : Z) (company_df : list Row) (k : Z) : list Row :=
  group k (sorted_frame data_frequency current_year start_year end_year company_df).

(** The period of a date under each frequency. *)
Definition period_of (data_frequency : Frequency) (t : Timestamp) : Z :=
  match data_frequency with
  | Annual => year t
  | Quarterly => to_period_Q t
  end.

(** Ascending by date. *)
Definition date_le (a b : option Timestamp) : Prop := date_leb a b = true.

Definition by_date {A} (date : A -> option Timestamp) (a b : A) : Prop :=
  date_le (date a) (date b).

(** The ['Year'] or ['Quarter'] cell the script computes for a row. *)
Definition period_key (data_frequency : Frequency) (r : Row) : option Z :=
  period_of data_frequency <$> Date r.

(** [aggregated_df['Date']] for the group [g] of period [k]: line 101 for
    Annual, line 116 for Quarterly. *)
Definition representative_date (data_frequency : Frequency) (k : Z) (g : list Row)
  : option Timestamp :=
  match data_frequency with
  | Annual => last_valid_date (map Date g)
  | Quarterly => Some (end_time k)
  end.

(** [v] is the value of column [col] in the last row of [g] where it is not
    missing, and missing when the column is missing in all of [g]. *)
Definition last_non_null (col : Row -> float) (g : list Row) (v : float) : Prop :=
  (List.Forall (fun r => F64.is_nan (col r) = true) g /\ v = F64.nan)
  \/ (exists pre r post,
         g = pre ++ r :: post /\ F64.is_nan (col r) = false
         /\ List.Forall (fun y => F64.is_nan (col y) = true) post /\ v = col r).

(** ** Growth Calculator (lines 193-199) *)

(** [fillna(method='pad')]: a missing value takes the last value seen
    before it; leading missing values stay missing. *)
Fixpoint pad_from (prev : float) (xs : list float) : list float :=
  match xs with
  | [] => []
  | x :: t => let v := if F64.is_nan x then prev else x in v :: pad_from v t
  end.

Definition pad (xs : list float) : list float := pad_from F64.nan xs.

(** [shift(1)]: every value moves one row down, the first row is missing. *)
Definition shift (xs : list float) : list float :=
  match xs with
  | [] => []
  | _ => F64.nan :: removelast xs
  end.

(** [Series.pct_change()] with its defaults ([periods=1],
    [fill_method='pad']): pad, then [data / data.shift(1) - 1]. *)
Definition pct_change (xs : list float) : list float :=
  let data := pad xs in
  map (fun '(d, s) => F64.sub (F64.div d s) (F64.of_Z 1)) (combine data (shift data)).

(** [column.pct_change() * 100] *)
Definition growth_rate (xs : list float) : list float :=
  map (fun x => F64.mul x (F64.of_Z 100)) (pct_change xs).

(** A row of [aggregated_df] with its two growth columns. *)
Record GrowthRow := mkGrowthRow {
  point : AggRow;
  EPS_Growth_Rate : float;
  Price_Growth_Rate : float
}.

(** Line 194: [aggregated_df['EPS Growth Rate'] = ...] *)
Definition add_eps_growth (aggregated_df : list AggRow) : list (AggRow * float) :=
  combine aggregated_df (growth_rate (map agg_EPS aggregated_df)).

(** Line 195: [aggregated_df['Price Growth Rate'] = ...] *)
Definition add_price_growth (aggregated_df : list (AggRow * float)) : list GrowthRow :=
  map (fun '((a, e), p) => mkGrowthRow a e p)
      (combine aggregated_df
         (growth_rate (map (fun r => agg_SharePrice (fst r)) aggregated_df))).

Definition add_growth (aggregated_df : list AggRow) : list GrowthRow :=
  add_price_growth (add_eps_growth aggregated_df).

(** [replace([inf, -inf], pd.NA)] on one float *)
Definition replace_inf (x : float) : float :=
  if F64.is_inf x then F64.nan else x.

(** Line 198: every float column of the frame goes through [replace]. *)
Definition replace_inf_row (g : GrowthRow) : GrowthRow :=
  {| point := {| Period := Period (point g);
                 agg_EPS := replace_inf (agg_EPS (point g));
                 agg_SharePrice := replace_inf (agg_SharePrice (point g));
                 agg_Date := agg_Date (point g) |};
     EPS_Growth_Rate := replace_inf (EPS_Growth_Rate g);
     Price_Growth_Rate := replace_inf (Price_Growth_Rate g) |}.

(** Line 199: [dropna(subset=['EPS Growth Rate', 'Price Growth Rate'])] *)
Definition has_growth (g : GrowthRow) : bool :=
  negb (F64.is_nan (EPS_Growth_Rate g)) && negb (F64.is_nan (Price_Growth_Rate g)).

(** Lines 193-199: [growth_df] from the charted [aggregated_df]. *)
Definition growth (aggregated_df : list AggRow) : list GrowthRow :=
  List.filter has_growth
    (map replace_inf_row (add_growth (sort_values agg_Date aggregated_df))).

(** The growth of [curr] over [prev], in percent, as lines 194-195
    compute it: [(curr / prev - 1) * 100]. *)
Definition pct (prev curr : float) : float :=
  F64.mul (F64.sub (F64.div curr prev) (F64.of_Z 1)) (F64.of_Z 100).

(** The frame the growth columns are added to, and its two value columns
    after the padding of [pct_change]. *)
Definition growth_base (aggregated_df : list AggRow) : list AggRow :=
  sort_values agg_Date aggregated_df.

Definition padded_EPS (aggregated_df : list AggRow) : list float :=
  pad (map agg_EPS (growth_base aggregated_df)).

Definition padded_SharePrice (aggregated_df : list AggRow) : list float :=
  pad (map agg_SharePrice (growth_base aggregated_df)).

(** The row of [growth_df] made from row [curr] of [aggregated_df]. *)
Definition growth_point (curr : AggRow) (eps_growth price_growth : float) : GrowthRow :=
  replace_inf_row (mkGrowthRow curr eps_growth price_growth).

(** ** The script on the object store (lines 67-199)

    A pandas frame is an object: [company_df = company_data[name]] binds the
    variable to the stored frame itself, a column assignment
    [frame['Year'] = ...] changes the frame it is applied to, and indexing
    with a mask, [sort_values], [groupby(...).agg(...)], [replace] and
    [dropna] each build a new frame. *)

Definition loc := positive.

(** The frames the script handles, by the columns they carry. *)
Inductive object :=
  | OCompany (df : list Row)              (* Date, EPS, Share Price *)
  | OKeyed (df : list KeyedRow)           (* ... and Year or Quarter *)
  | OAgg (df : list AggRow)               (* the aggregated frame *)
  | OAggEPS (df : list (AggRow * float))  (* ... and EPS Growth Rate *)
  | OGrowth (df : list GrowthRow).        (* ... and Price Growth Rate *)

(** The interpreter state: the objects, and the module-level dictionary
    [company_data] from company name to frame. *)
Record state := mkState {
  heap : gmap loc object;
  company_data_var : gmap string loc
}.

Inductive error :=
  | PyExn (e : exn)
  | KeyError       (* [company_data[name]] on an absent name *)
  | NoSuchColumn.  (* a frame without the column the statement reads *)

Definition M (A : Type) : Type := state -> (error + A) * state.

Definition ret {A} (a : A) : M A := fun st => (inr a, st).
Definition raise {A} (e : error) : M A := fun st => (inl e, st).
Definition bind {A B} (m : M A) (k : A -> M B) : M B :=
  fun st => match m st with
            | (inl e, st') => (inl e, st')
            | (inr a, st') => k a st'
            end.

Notation "x <- m ;; k" := (bind m (fun x => k))
  (at level 100, m at next level, right associativity, only parsing).
Notation "m ;;; k" := (bind m (fun _ => k))
  (at level 100, right associativity, only parsing).

Definition lift {A} (r : error + A) : M A := fun st => (r, st).

(** A new object, at an address no object has yet. *)
Definition alloc (o : object) : M loc :=
  fun st =>
    let l := fresh (dom (heap st)) in
    (inr l, {| heap := <[l := o]> (heap st); company_data_var := company_data_var st |}).

Definition read (l : loc) : M object :=
  fun st => match heap st !! l with
            | Some o => (inr o, st)
            | None => (inl KeyError, st)
            end.

Definition write (l : loc) (o : object) : M unit :=
  fun st => (inr tt, {| heap := <[l := o]> (heap st); company_data_var := company_data_var st |}).

(** [company_data[name]]: the stored frame, not a copy. *)
Definition lookup_company (name : string) : M loc :=
  fun st => match company_data_var st !! name with
            | Some l => (inr l, st)
            | None => (inl KeyError, st)
            end.

(** A method that returns a new frame. *)
Definition new_from (l : loc) (f : object -> error + object) : M loc :=
  o <- read l ;; o' <- lift (f o) ;; alloc o'.

(** A column assignment on the frame at [l]. *)
Definition setitem (l : loc) (f : object -> error + object) : M unit :=
  o <- read l ;; o' <- lift (f o) ;; write l o'.

(** The frame operations of the script, on objects. *)
Definition getitem_mask (mask : Row -> bool) (o : object) : error + object :=
  match o with
  | OCompany df => inr (OCompany (List.filter mask df))
  | _ => inl NoSuchColumn
  end.

Definition setitem_period (key : Row -> option Z) (o : object) : error + object :=
  match o with
  | OCompany df => inr (OKeyed (add_period key df))
  | _ => inl NoSuchColumn
  end.

Definition sort_values_Date (o : object) : error + object :=
  match o with
  | OCompany df => inr (OCompany (sort_values Date df))
  | OKeyed df => inr (OKeyed (sort_values (fun p => Date (fst p)) df))
  | OAgg df => inr (OAgg (sort_values agg_Date df))
  | _ => inl NoSuchColumn
  end.

Definition groupby_agg (o : object) : error + object :=
  match o with
  | OKeyed df => inr (OAgg (groupby_last df))
  | _ => inl NoSuchColumn
  end.

Definition setitem_Date_end_time (o : object) : error + object :=
  match o with
  | OAgg df => inr (OAgg (set_quarter_end df))
  | _ => inl NoSuchColumn
  end.

Definition setitem_EPS_growth (o : object) : error + object :=
  match o with
  | OAgg df => inr (OAggEPS (add_eps_growth df))
  | _ => inl NoSuchColumn
  end.

Definition setitem_Price_growth (o : object) : error + object :=
  match o with
  | OAggEPS df => inr (OGrowth (add_price_growth df))
  | _ => inl NoSuchColumn
  end.

Definition replace_inf_NA (o : object) : error + object :=
  match o with
  | OGrowth df => inr (OGrowth (map replace_inf_row df))
  | _ => inl NoSuchColumn
  end.

Definition dropna_growth (o : object) : error + object :=
  match o with
  | OGrowth df => inr (OGrowth (List.filter has_growth df))
  | _ => inl NoSuchColumn
  end.

Definition read_company (l : loc) : M (list Row) :=
  o <- read l ;;
  match o with OCompany df => ret df | _ => raise NoSuchColumn end.

Definition read_agg (l : loc) : M (list AggRow) :=
  o <- read l ;;
  match o with OAgg df => ret df | _ => raise NoSuchColumn end.

Definition read_growth (l : loc) : M (list GrowthRow) :=
  o <- read l ;;
  match o with OGrowth df => ret df | _ => raise NoSuchColumn end.

(** [Series.min()] and [Series.max()] of a date column: NaT is skipped, the
    result is NaT when no date is left. *)
Definition date_min (ds : list (option Timestamp)) : option Timestamp :=
  foldl (fun acc d =>
           match acc, d with
           | Some a, Some x => Some (if ts_leb a x then a else x)
           | None, _ => d
           | _, None => acc
           end) None ds.

Definition date_max (ds : list (option Timestamp)) : option Timestamp :=
  foldl (fun acc d =>
           match acc, d with
           | Some a, Some x => Some (if ts_leb a x then x else a)
           | None, _ => d
           | _, None => acc
           end) None ds.

(** Lines 88-116, on the frame bound to [company_df] after line 86. *)
Definition aggregate_frame (data_frequency : Frequency) (current_year : Z)
    (company_df : loc) : M loc :=
  match data_frequency with
  | Annual =>
      company_df <- new_from company_df (getitem_mask (before_year current_year)) ;;
      setitem company_df (setitem_period year_key) ;;;
      sorted <- new_from company_df sort_values_Date ;;
      new_from sorted groupby_agg
  | Quarterly =>
      setitem company_df (setitem_period quarter_key) ;;;
      sorted <- new_from company_df sort_values_Date ;;
      aggregated_df <- new_from sorted groupby_agg ;;
      setitem aggregated_df setitem_Date_end_time ;;;
      ret aggregated_df
  end.

(** Lines 67-199.  [select_slider min_year max_year] is the pair of years
    the user leaves on the slider.  The result is what the two charts are
    drawn from: [aggregated_df] as it is at line 190 and [growth_df]; [None]
    stands for the two warning branches. *)
Definition render (selected_company : option string) (data_frequency : Frequency)
    (select_slider : Z -> Z -> Z * Z) (current_year : Z)
  : M (option (list AggRow * list GrowthRow)) :=
  match selected_company with
  | None => ret None
  | Some name =>
      company_df <- lookup_company name ;;
      rows <- read_company company_df ;;
      match rows with
      | [] => ret None
      | _ =>
          match date_min (map Date rows), date_max (map Date rows) with
          | Some min_date, Some max_date =>
              let '(start_year, end_year) := select_slider (year min_date) (year max_date) in
              company_df <- new_from company_df
                              (getitem_mask (in_year_range start_year end_year)) ;;
              aggregated_df <- aggregate_frame data_frequency current_year company_df ;;
              aggregated_df <- new_from aggregated_df sort_values_Date ;;
              charted <- read_agg aggregated_df ;;
              aggregated_df <- new_from aggregated_df sort_values_Date ;;
              setitem aggregated_df setitem_EPS_growth ;;;
              setitem aggregated_df setitem_Price_growth ;;;
              growth_df <- new_from aggregated_df replace_inf_NA ;;
              growth_df <- new_from growth_df dropna_growth ;;
              growth_rows <- read_growth growth_df ;;
              ret (Some (charted, growth_rows))
          | _, _ => raise (PyExn TypeError)
          end
      end
  end.

(** Line 53 on the store: the frame of the block becomes a new object and
    the dictionary entry of its name points to it. *)
Definition store_block (b : Block) : M unit :=
  l <- alloc (OCompany (block_frame b)) ;;
  fun st => (inr tt, {| heap := heap st;
                        company_data_var := <[block_name b := l]> (company_data_var st) |}).

Fixpoint store_blocks (blocks : list Block) : M unit :=
  match blocks with
  | [] => ret tt
  | b :: rest => store_block b ;;; store_blocks rest
  end.

Definition empty_state : state := {| heap := ∅; company_data_var := ∅ |}.

(** ** Specifications of store code *)

(** [st] still has the dictionary and every object of [st0], unchanged. *)
Definition keeps (st0 st : state) : Prop :=
  company_data_var st = company_data_var st0 /\ heap st0 ⊆ heap st.

(** Run from any state that keeps [st0], [m] ends, normally or not, in a
    state that keeps [st0], and a value it returns satisfies [Q]. *)
Definition frames (st0 : state) {A} (m : M A) (Q : A -> Prop) : Prop :=
  forall st, keeps st0 st ->
    keeps st0 (snd (m st)) /\ forall a, fst (m st) = inr a -> Q a.

(** From a state in [P], [m] returns a value [a] and a state in [Q a]. *)
Definition returns {A} (P : state -> Prop) (m : M A) (Q : A -> state -> Prop) : Prop :=
  forall st, P st -> exists a st', m st = (inr a, st') /\ Q a st'.

(** The object at [l] is [o]. *)
Definition holds (l : loc) (o : object) (st : state) : Prop := heap st !! l = Some o.

(** ** Block discovery as the specification words it

    Scan the header index [i] from 0; a blank header moves [i] by one;
    any other header starts the block of columns [i, i+1, i+2] named by the
    trimmed header and moves [i] by four. *)

Definition CompanyBlock : Type := string * list nat.

Fixpoint spec_scan (fuel : nat) (headers : list (option string)) (i : nat)
  : list CompanyBlock :=
  if (List.length headers <=? i)%nat then []
  else
    match fuel with
    | O => []
    | S fuel' =>
        match nth i headers None with
        | None => spec_scan fuel' headers (i + 1)%nat
        | Some h =>
            if PyStr.is_empty (PyStr.strip h) then spec_scan fuel' headers (i + 1)%nat
            else (PyStr.strip h, [i; i + 1; i + 2]%nat) :: spec_scan fuel' headers (i + 4)%nat
        end
    end.

Definition spec_blocks (headers : list (option string)) : list CompanyBlock :=
  spec_scan (List.length headers) headers 0%nat.

(** Every column of every block is a column of a grid of width [n]. *)
Definition blocks_fit (n : nat) (blocks : list CompanyBlock) : bool :=
  forallb (fun b => forallb (fun c => (c <? n)%nat) (snd b)) blocks.

(** No column belongs to two blocks. *)
Definition no_overlap (blocks : list CompanyBlock) : Prop :=
  forall j k b1 b2 c,
    (j < k)%nat -> blocks !! j = Some b1 -> blocks !! k = Some b2 ->
    In c (snd b1) -> ~ In c (snd b2).

(** The name and the column positions of a block the loader stored. *)
Definition range_of (b : Block) : CompanyBlock := (block_name b, block_cols b).

Definition block_ranges (r : option (result (list Block)))
  : option (result (list CompanyBlock)) :=
  match r with
  | Some (Ok blocks) => Some (Ok (map range_of blocks))
  | Some (Raise e) => Some (Raise e)
  | None => None
  end.

(** What lines 48-50 make of a row that line 47 kept, [dates] being the
    date cells of the kept rows. *)
Definition coerce_row (parse_datetime : list cell -> cell -> option Timestamp)
    (parse_float : string -> option float) (dates : list cell) (r : RawRow) : Row :=
  {| Date := parse_datetime dates (raw_date r);
     EPS := to_numeric parse_float (raw_eps r);
     SharePrice := to_numeric parse_float (raw_price r) |}.

(** ** Sample cell parsers

    Strict stand-ins for the two library parsers, used where a statement is
    evaluated on concrete cells: dates written [YYYY-MM-DD], numbers written
    as unsigned decimal integers. *)

Definition digit (c : ascii) : option Z :=
  let n := Z.of_nat (nat_of_ascii c) in
  if (48 <=? n) && (n <=? 57) then Some (n - 48) else None.

Definition is_dash (c : ascii) : bool := (nat_of_ascii c =? 45)%nat.

Definition sample_parse_datetime (_ : list cell) (c : cell) : option Timestamp :=
  match c with
  | Str (String y1 (String y2 (String y3 (String y4 (String s1
        (String m1 (String m2 (String s2 (String d1 (String d2 EmptyString)))))))))) =>
      match digit y1, digit y2, digit y3, digit y4, digit m1, digit m2, digit d1, digit d2 with
      | Some a, Some b, Some c, Some d, Some e, Some f, Some g, Some h =>
          let m := 10 * e + f in
          let dd := 10 * g + h in
          if is_dash s1 && is_dash s2 && (1 <=? m) && (m <=? 12) && (1 <=? dd) && (dd <=? 31)
          then Some (mkTimestamp (1000 * a + 100 * b + 10 * c + d) m dd 0)
          else None
      | _, _, _, _, _, _, _, _ => None
      end
  | _ => None
  end.

Fixpoint digits_value (acc : Z) (s : string) : option Z :=
  match s with
  | EmptyString => Some acc
  | String c t =>
      match digit c with
      | Some v => digits_value (10 * acc + v) t
      | None => None
      end
  end.

Definition sample_parse_float (s : string) : option float :=
  match s with
  | EmptyString => None
  | _ => F64.of_Z <$> digits_value 0 s
  end.

(** ** The labels of the columns

    [read_csv(header=0)] names the column of an empty header cell
    [Unnamed: k], [k] its position, and leaves every other cell as it is,
    also one of white space only.  (The reader renames a repeated name; the
    header cells are taken with distinct names.) *)

Definition unnamed (k : nat) : string := "Unnamed: " +:+ pretty k.

Definition header_labels (cells : list string) : list (option string) :=
  imap (fun k c => Some (if PyStr.is_empty c then unnamed k else c)) cells.

(** ** Sample inputs *)

(** The header line [A,,,,B,,,]: two blocks, each followed by its separator
    column. *)
Definition cells_AB : list string :=
  ["A"%string; EmptyString; EmptyString; EmptyString;
   "B"%string; EmptyString; EmptyString; EmptyString].

Definition headers_AB : list (option string) := header_labels cells_AB.

(** The header line [,A,,,]: an empty cell before the block. *)
Definition cells_blank_A : list string :=
  [EmptyString; "A"%string; EmptyString; EmptyString; EmptyString].

(** The header line [,A,,,,,,]: the same, three columns wider. *)
Definition cells_blank_A_wide : list string :=
  [EmptyString; "A"%string; EmptyString; EmptyString; EmptyString;
   EmptyString; EmptyString; EmptyString].

(** A header line whose first cell is one space and whose first name has
    a space on each side, then a block B. *)
Definition cells_space_A_B : list string :=
  [" "%string; " A "%string; EmptyString; EmptyString; EmptyString;
   "B"%string; EmptyString; EmptyString].

(** What [read_csv] returns for the header line [A,]: the company name and
    one more column. *)
Definition headers_short : list (option string) :=
  [Some "A"%string; Some "Unnamed: 1"%string].

Definition num (z : Z) : cell := Num (F64.of_Z z).

Definition grid_AB : RawGrid :=
  mkRawGrid headers_AB
    [[Str "2021-03-15"; num 1; num 10; NA; Str "2021-03-15"; num 5; num 50; NA];
     [Str "2021-06-15"; num 2; num 12; NA; NA; NA; NA; NA]].

(** A dated row, a row whose date cell is text that is no date (and none
    of the texts the reader takes for a missing value), and a row without a
    date cell. *)
Definition rows_bad_date : list RawRow :=
  [mkRawRow (Str "2021-03-15") (num 1) (num 10);
   mkRawRow (Str "TBD") (num 2) (num 20);
   mkRawRow NA (num 3) (num 30)].

(** Two dated rows, the later one first. *)
Definition rows_unsorted : list RawRow :=
  [mkRawRow (Str "2021-06-15") (num 2) (num 12);
   mkRawRow (Str "2021-03-15") (num 1) (num 10)].

Definition date_sorted (series : list Row) : Prop :=
  Sorted (fun a b => date_leb (Date a) (Date b) = true) series.

Definition at_midnight (y m d : Z) : option Timestamp := Some (mkTimestamp y m d 0).

Definition obs (date : option Timestamp) (eps price : float) : Row :=
  {| Date := date; EPS := eps; SharePrice := price |}.

(** One quarter, 2023Q1: the later observation has no EPS; a third row has
    no date. *)
Definition series_gap : list Row :=
  [obs (at_midnight 2023 1 1) (F64.of_Z 1) (F64.of_Z 10);
   obs (at_midnight 2023 3 30) F64.nan (F64.of_Z 12);
   obs None (F64.of_Z 5) (F64.of_Z 5)].

(** Three year-end observations, the middle one without EPS. *)
Definition series_gap_year : list Row :=
  [obs (at_midnight 2020 12 31) (F64.of_Z 1) (F64.of_Z 10);
   obs (at_midnight 2021 12 31) F64.nan (F64.of_Z 11);
   obs (at_midnight 2022 12 31) (F64.of_Z 2) (F64.of_Z 12)].

Definition frame_gap_year : list AggRow := aggregate Annual 2026 2020 2022 series_gap_year.

(** The store after loading one company, X, with two quarterly
    observations. *)
Definition series_X : list Row :=
  [obs (at_midnight 2021 3 15) (F64.of_Z 1) (F64.of_Z 10);
   obs (at_midnight 2021 6 15) (F64.of_Z 2) (F64.of_Z 12)].

Definition state_X : state :=
  snd (store_blocks [mkBlock "X"%string [0; 1; 2]%nat series_X] empty_state).

(** ** The claims the code does not meet, as the specification states them *)

(** A growth point is emitted only for a pair of rows none of whose four
    operands is null. *)
Definition dropped_on_null_operand (aggregated_df : list AggRow) : Prop :=
  forall k prev curr g,
    aggregated_df !! k = Some prev -> aggregated_df !! S k = Some curr ->
    In g (growth aggregated_df) -> Period (point g) = Period curr ->
    F64.is_nan (agg_EPS prev) = false /\ F64.is_nan (agg_EPS curr) = false
    /\ F64.is_nan (agg_SharePrice prev) = false
    /\ F64.is_nan (agg_SharePrice curr) = false.

(** The aggregated values of a period are those of its observation of
    maximum date. *)
Definition values_of_latest_observation (data_frequency : Frequency)
    (current_year start_year end_year : Z) (company_df : list Row) : Prop :=
  forall a r,
    In a (aggregate data_frequency current_year start_year end_year company_df) ->
    let g := period_group data_frequency current_year start_year end_year company_df
               (Period a) in
    In r g -> (forall r', In r' g -> date_le (Date r') (Date r)) ->
    agg_EPS a = EPS r /\ agg_SharePrice a = SharePrice r.

(** ** Further descriptions of the loader and of the script *)

(** The cells of columns [i], [i+1], [i+2] of the grid, row by row. *)
Definition block_rows (df : RawGrid) (i : nat) : list RawRow :=
  map (fun row => mkRawRow (cell_at row i) (cell_at row (i + 1)) (cell_at row (i + 2)))
      (data df).

(** What the pass at a company name in column [i] stores. *)
Definition block_at (parse_datetime : list cell -> cell -> option Timestamp)
    (parse_float : string -> option float) (df : RawGrid) (i : nat) (b : Block) : Prop :=
  (i + 3 <= num_columns df)%nat
  /\ exists h,
      nth i (columns df) None = Some h
      /\ PyStr.is_empty (PyStr.strip h) = false
      /\ block_name b = PyStr.strip h
      /\ block_cols b = [i; i + 1; i + 2]%nat
      /\ block_frame b = normalize parse_datetime parse_float (block_rows df i).

(** The blocks stored under [name], in the order of the passes. *)
Definition blocks_named (name : string) (blocks : list Block) : list Block :=
  List.filter (fun b => bool_decide (block_name b = name)) blocks.

(** A date of the calendar: month 1 to 12, a day the month can have, a time
    within the day. *)
Definition days_in_month (m : Z) : Z :=
  if (m =? 2) then 29
  else if (m =? 4) || (m =? 6) || (m =? 9) || (m =? 11) then 30
  else 31.

Definition calendar_date (t : Timestamp) : Prop :=
  1 <= month t <= 12 /\ 1 <= day t <= days_in_month (month t)
  /\ 0 <= nanos t < nanos_per_day.

(** Strictly earlier. *)
Definition ts_lt (a b : Timestamp) : Prop := ts_compare a b = Lt.

Definition has_date (r : Row) : bool :=
  match Date r with Some _ => true | None => false end.

(** The slider as the page first shows it: [value=(min_year, max_year)]. *)
Definition default_slider (min_year max_year : Z) : Z * Z := (min_year, max_year).

Definition state_undated : state :=
  snd (store_blocks
         [mkBlock "X"%string [0; 1; 2]%nat
            (normalize sample_parse_datetime sample_parse_float
               [mkRawRow (Str "TBD") (num 2) (num 20)])]
         empty_state).

(** * Proofs *)

(** * Order on dates *)

Ltac compare_fields :=
  repeat match goal with
         | H : context [Z.compare ?x ?y] |- _ =>
             destruct (Z.compare_spec x y); try discriminate H
         | |- context [Z.compare ?x ?y] =>
             destruct (Z.compare_spec x y)
         end;
  try reflexivity; try lia.

Lemma ts_leb_total (a b : Timestamp) : ts_leb a b = true \/ ts_leb b a = true.
Proof.
  unfold ts_leb, ts_compare. destruct a, b; cbn.
  compare_fields; auto.
Qed.

Lemma ts_leb_trans (a b c : Timestamp) :
  ts_leb a b = true -> ts_leb b c = true -> ts_leb a c = true.
Proof.
  unfold ts_leb, ts_compare. destruct a, b, c; cbn.
  intros H1 H2. compare_fields.
Qed.

Lemma date_leb_total (a b : option Timestamp) : date_le a b \/ date_le b a.
Proof.
  unfold date_le. destruct a, b; cbn; auto. apply ts_leb_total.
Qed.

Lemma date_leb_trans (a b c : option Timestamp) :
  date_le a b -> date_le b c -> date_le a c.
Proof.
  unfold date_le. destruct a, b, c; cbn; auto; try discriminate. apply ts_leb_trans.
Qed.

(** * [sort_values] *)

Section SortValues.
Context {A : Type} (date : A -> option Timestamp).

Lemma insert_by_perm (x : A) (l : list A) :
  Permutation (insert_by date x l) (x :: l).
Proof.
  induction l as [| y t IH]; cbn; [reflexivity |].
  destruct (date_leb (date x) (date y)); [reflexivity |].
  rewrite IH. apply perm_swap.
Qed.

Lemma sort_values_perm (l : list A) : Permutation (sort_values date l) l.
Proof.
  induction l as [| x t IH]; cbn; [reflexivity |].
  rewrite insert_by_perm. now constructor.
Qed.

Lemma sort_values_In (l : list A) (x : A) : In x (sort_values date l) <-> In x l.
Proof.
  split; apply Permutation_in; [| symmetry]; apply sort_values_perm.
Qed.

Lemma insert_by_sorted (x : A) (l : list A) :
  StronglySorted (by_date date) l -> StronglySorted (by_date date) (insert_by date x l).
Proof.
  induction 1 as [| y t Hsorted IH Hall]; cbn.
  - repeat constructor.
  - destruct (date_leb (date x) (date y)) eqn:Hxy.
    + constructor; [now constructor |].
      constructor; [exact Hxy |].
      eapply List.Forall_impl; [| exact Hall].
      intros z Hz. eapply date_leb_trans; eauto.
    + constructor; [exact IH |].
      eapply Permutation_Forall; [symmetry; apply insert_by_perm |].
      constructor; [| exact Hall].
      destruct (date_leb_total (date x) (date y)) as [H | H]; [| exact H].
      unfold date_le in H. congruence.
Qed.

Lemma sort_values_sorted (l : list A) : StronglySorted (by_date date) (sort_values date l).
Proof.
  induction l as [| x t IH]; cbn; [constructor |]. now apply insert_by_sorted.
Qed.

Lemma filter_sorted (p : A -> bool) (l : list A) :
  StronglySorted (by_date date) l -> StronglySorted (by_date date) (List.filter p l).
Proof.
  induction 1 as [| y t Hsorted IH Hall]; cbn; [constructor |].
  destruct (p y); [| exact IH].
  constructor; [exact IH |].
  apply List.Forall_forall. intros z Hz. apply filter_In in Hz.
  rewrite List.Forall_forall in Hall. now apply Hall.
Qed.

End SortValues.

Lemma map_fst_sorted (l : list KeyedRow) :
  StronglySorted (by_date (fun p => Date (fst p))) l ->
  StronglySorted (by_date Date) (map fst l).
Proof.
  induction 1 as [| y t Hsorted IH Hall]; cbn; constructor; [exact IH |].
  apply List.Forall_forall. intros z Hz. apply in_map_iff in Hz as (p & <- & Hp).
  rewrite List.Forall_forall in Hall. now apply Hall.
Qed.

(** In a list ascending by date the last row has the latest date. *)
Lemma sorted_last_max {A} (date : A -> option Timestamp) (l : list A) (x : A) :
  StronglySorted (by_date date) (l ++ [x]) ->
  forall y, In y (l ++ [x]) -> date_le (date y) (date x).
Proof.
  induction l as [| z t IH]; cbn; intros Hs y Hy.
  - destruct Hy as [<- | []]. destruct (date_leb_total (date x) (date x)); assumption.
  - inversion Hs as [| ? ? Hs' Hall]; subst.
    destruct Hy as [<- | Hy].
    + rewrite List.Forall_forall in Hall. apply Hall, in_or_app. right. now left.
    + now apply IH.
Qed.

(** * [groupby] *)

Lemma insert_key_In (k x : Z) (ks : list Z) :
  In x (insert_key k ks) <-> x = k \/ In x ks.
Proof.
  induction ks as [| k' t IH]; cbn.
  - intuition.
  - destruct (Z.ltb_spec k k'); cbn; [intuition |].
    destruct (Z.eqb_spec k k'); cbn; [subst; intuition |].
    rewrite IH. intuition.
Qed.

Lemma group_keys_In (keys : list (option Z)) (k : Z) :
  In k (group_keys keys) <-> In (Some k) keys.
Proof.
  induction keys as [| [k' |] t IH]; cbn.
  - reflexivity.
  - rewrite insert_key_In, IH. split; intros [H | H]; auto.
    + subst. auto.
    + injection H as ->. auto.
  - rewrite IH. split; [auto | intros [H | H]; [discriminate | exact H]].
Qed.

Lemma insert_key_sorted (k : Z) (ks : list Z) :
  StronglySorted Z.lt ks -> StronglySorted Z.lt (insert_key k ks).
Proof.
  induction 1 as [| k' t Hs IH Hall]; cbn.
  - repeat constructor.
  - destruct (Z.ltb_spec k k').
    + constructor; [now constructor |]. constructor; [assumption |].
      eapply List.Forall_impl; [| exact Hall]. intros; cbn in *; lia.
    + destruct (Z.eqb_spec k k'); [now constructor |].
      constructor; [exact IH |].
      apply List.Forall_forall. intros z Hz. apply insert_key_In in Hz as [-> | Hz].
      * lia.
      * rewrite List.Forall_forall in Hall. now apply Hall.
Qed.

Lemma group_keys_sorted (keys : list (option Z)) : StronglySorted Z.lt (group_keys keys).
Proof.
  induction keys as [| [k |] t IH]; cbn; [constructor | | exact IH].
  now apply insert_key_sorted.
Qed.

Lemma group_In (k : Z) (df : list KeyedRow) (r : Row) :
  In r (group k df) <-> In (r, Some k) df.
Proof.
  unfold group. rewrite in_map_iff. split.
  - intros ([r' key] & <- & H). apply filter_In in H as [H Hk].
    cbn in Hk. apply bool_decide_eq_true in Hk. cbn in *. now subst.
  - intros H. exists (r, Some k). split; [reflexivity |].
    apply filter_In. split; [exact H |]. cbn. now apply bool_decide_eq_true.
Qed.

Lemma groupby_last_In (df : list KeyedRow) (a : AggRow) :
  In a (groupby_last df) <->
  (exists r, In (r, Some (Period a)) df)
  /\ a = {| Period := Period a;
            agg_EPS := last_valid (map EPS (group (Period a) df));
            agg_SharePrice := last_valid (map SharePrice (group (Period a) df));
            agg_Date := last_valid_date (map Date (group (Period a) df)) |}.
Proof.
  unfold groupby_last. rewrite in_map_iff. split.
  - intros (k & <- & Hk). cbn. split; [| reflexivity].
    apply group_keys_In, in_map_iff in Hk as ([r key] & Hkey & Hin).
    cbn in Hkey. subst. now exists r.
  - intros [[r Hr] Ha]. exists (Period a). split; [now symmetry |].
    apply group_keys_In, in_map_iff. now exists (r, Some (Period a)).
Qed.

(** * The ['last'] aggregation *)

Lemma is_nan_eq (x : float) : F64.is_nan x = true -> x = F64.nan.
Proof. destruct x; cbn; intros H; try discriminate H; reflexivity. Qed.

Lemma last_valid_snoc (xs : list float) (x : float) :
  last_valid (xs ++ [x]) = if F64.is_nan x then last_valid xs else x.
Proof. unfold last_valid. rewrite foldl_app. reflexivity. Qed.

(** The aggregated value is the last value of the group that is not
    missing, and it is missing exactly when the whole group is. *)
Lemma last_valid_cases (xs : list float) :
  (List.Forall (fun x => F64.is_nan x = true) xs /\ last_valid xs = F64.nan)
  \/ (exists pre x post,
         xs = pre ++ x :: post /\ F64.is_nan x = false
         /\ List.Forall (fun y => F64.is_nan y = true) post /\ last_valid xs = x).
Proof.
  induction xs as [| x xs IH] using rev_ind.
  - left. split; [constructor | reflexivity].
  - rewrite last_valid_snoc. destruct (F64.is_nan x) eqn:Hx.
    + destruct IH as [[Hall Hv] | (pre & y & post & -> & Hy & Hpost & Hv)].
      * left. split; [| exact Hv]. apply List.Forall_app. split; [exact Hall |].
        now repeat constructor.
      * right. exists pre, y, (post ++ [x]). rewrite <- app_assoc. cbn.
        repeat split; auto. apply List.Forall_app. split; [exact Hpost |].
        now repeat constructor.
    + right. exists xs, x, []. repeat split; auto.
Qed.

Lemma last_valid_date_snoc (ds : list (option Timestamp)) (t : Timestamp) :
  last_valid_date (ds ++ [Some t]) = Some t.
Proof. unfold last_valid_date. rewrite foldl_app. reflexivity. Qed.

(** * The aggregated frame *)

Section Aggregation.

Variables (data_frequency : Frequency) (current_year start_year end_year : Z).
Variable company_df : list Row.

Let frame := sorted_frame data_frequency current_year start_year end_year company_df.
Let groups := period_group data_frequency current_year start_year end_year company_df.

Lemma in_year_range_spec (r : Row) :
  in_year_range start_year end_year r = true <->
  exists t, Date r = Some t /\ start_year <= year t <= end_year.
Proof.
  unfold in_year_range, year_ge, year_le, dt_year. destruct (Date r) as [t |]; cbn.
  - rewrite andb_true_iff, !Z.leb_le. split.
    + intros H. exists t. split; [reflexivity | lia].
    + intros (t' & [= <-] & H). lia.
  - split; [discriminate | intros (t & H & _); discriminate].
Qed.

Lemma before_year_spec (r : Row) :
  before_year current_year r = true <->
  exists t, Date r = Some t /\ year t < current_year.
Proof.
  unfold before_year, year_lt, dt_year. destruct (Date r) as [t |]; cbn.
  - rewrite Z.ltb_lt. split.
    + intros H. now exists t.
    + now intros (t' & [= <-] & H).
  - split; [discriminate | intros (t & H & _); discriminate].
Qed.

Lemma grouped_frame_In (filtered : list Row) (r : Row) (key : option Z) :
  In (r, key) (grouped_frame data_frequency current_year filtered) <->
  In r filtered
  /\ (data_frequency = Annual -> before_year current_year r = true)
  /\ key = period_key data_frequency r.
Proof.
  unfold grouped_frame, add_period. destruct data_frequency; rewrite in_map_iff.
  - split.
    + intros (r' & [= <- <-] & Hr). repeat split; auto. discriminate.
    + intros (Hr & _ & ->). now exists r.
  - unfold filter_before. split.
    + intros (r' & [= <- <-] & Hr). apply filter_In in Hr as [Hr Hb]. auto.
    + intros (Hr & Hb & ->). exists r. split; [reflexivity |].
      apply filter_In. auto.
Qed.

Lemma frame_In (r : Row) (key : option Z) :
  In (r, key) frame <->
  In r company_df
  /\ in_year_range start_year end_year r = true
  /\ (data_frequency = Annual -> before_year current_year r = true)
  /\ key = period_key data_frequency r.
Proof.
  unfold frame, sorted_frame. rewrite sort_values_In, grouped_frame_In.
  unfold filter_years. rewrite filter_In. tauto.
Qed.

Lemma period_group_In (k : Z) (r : Row) :
  In r (groups k) <->
  In r company_df
  /\ in_year_range start_year end_year r = true
  /\ (data_frequency = Annual -> before_year current_year r = true)
  /\ period_key data_frequency r = Some k.
Proof.
  unfold groups, period_group. rewrite group_In. fold frame. rewrite frame_In.
  intuition congruence.
Qed.

Lemma period_group_sorted (k : Z) : StronglySorted (by_date Date) (groups k).
Proof.
  unfold groups, period_group, group, sorted_frame.
  apply map_fst_sorted, filter_sorted, sort_values_sorted.
Qed.

(** A row of the aggregated frame is the ['last'] of its period's
    observations, and these are not empty. *)
Lemma aggregate_In (a : AggRow) :
  In a (aggregate data_frequency current_year start_year end_year company_df) <->
  groups (Period a) <> []
  /\ a = {| Period := Period a;
            agg_EPS := last_valid (map EPS (groups (Period a)));
            agg_SharePrice := last_valid (map SharePrice (groups (Period a)));
            agg_Date := representative_date data_frequency (Period a)
                          (groups (Period a)) |}.
Proof.
  unfold aggregate, aggregate_sorted_groups. rewrite sort_values_In.
  fold (sorted_frame data_frequency current_year start_year end_year company_df).
  fold frame.
  assert (Hne : forall k, (exists r, In (r, Some k) frame) <-> groups k <> []).
  { intros k. unfold groups, period_group. fold frame. split.
    - intros [r Hr] Hnil. apply group_In in Hr. rewrite Hnil in Hr. destruct Hr.
    - intros Hnil. destruct (group k frame) as [| r g] eqn:Hg; [congruence |].
      exists r. apply group_In. rewrite Hg. now left. }
  unfold groups, period_group in Hne |- *. fold frame in Hne |- *.
  destruct data_frequency; cbn [representative_date].
  - unfold set_quarter_end. rewrite in_map_iff. split.
    + intros (a0 & <- & Ha0). apply groupby_last_In in Ha0 as [Hex Ha0].
      destruct a0 as [k e p d]. cbn in Hex, Ha0 |- *.
      split; [now apply Hne |]. injection Ha0 as He Hp Hd. congruence.
    + intros [Hnil Ha]. destruct a as [k e p d]. cbn in Hnil, Ha.
      injection Ha as He Hp Hd.
      exists {| Period := k; agg_EPS := e; agg_SharePrice := p;
                agg_Date := last_valid_date (map Date (group k frame)) |}.
      split; [cbn; congruence |].
      apply groupby_last_In. cbn. split; [now apply Hne | congruence].
  - rewrite groupby_last_In, Hne. reflexivity.
Qed.

Lemma aggregate_has_period (k : Z) :
  groups k <> [] ->
  exists a,
    In a (aggregate data_frequency current_year start_year end_year company_df)
    /\ Period a = k.
Proof.
  intros Hne.
  exists {| Period := k;
            agg_EPS := last_valid (map EPS (groups k));
            agg_SharePrice := last_valid (map SharePrice (groups k));
            agg_Date := representative_date data_frequency k (groups k) |}.
  split; [| reflexivity]. apply aggregate_In. cbn. auto.
Qed.

End Aggregation.

(** * The loader *)

Section LoaderFacts.

Variable parse_datetime : list cell -> cell -> option Timestamp.
Variable parse_float : string -> option float.

Lemma slice3_inside (n i : nat) : (i + 3 <= n)%nat -> slice3 n i = [i; i + 1; i + 2]%nat.
Proof.
  intros H. unfold slice3.
  replace (Nat.min 3 (n - i)) with 3%nat by lia.
  simpl. repeat f_equal; lia.
Qed.

Lemma slice3_short (n i : nat) : (n < i + 3)%nat -> (List.length (slice3 n i) =? 3)%nat = false.
Proof.
  intros H. unfold slice3. rewrite length_seq. apply Nat.eqb_neq. lia.
Qed.

Lemma block_fits (n i : nat) :
  (i < n)%nat ->
  forallb (fun c => (c <? n)%nat) [i; i + 1; i + 2]%nat = (i + 3 <=? n)%nat.
Proof.
  intros H. simpl.
  destruct (Nat.leb_spec (i + 3) n) as [Hle | Hlt].
  - repeat (rewrite (proj2 (Nat.ltb_lt _ _)) by lia). reflexivity.
  - rewrite (proj2 (Nat.ltb_lt i n)) by lia.
    destruct (Nat.ltb_spec (i + 1) n); simpl; [| reflexivity].
    rewrite (proj2 (Nat.ltb_ge (i + 2) n)) by lia. reflexivity.
Qed.

Lemma blocks_fit_cons (n : nat) (b : CompanyBlock) (bs : list CompanyBlock) :
  blocks_fit n (b :: bs) = forallb (fun c => (c <? n)%nat) (snd b) && blocks_fit n bs.
Proof. reflexivity. Qed.

(** The loop against the specification's scan, from any index: it returns
    for every fuel that covers the columns left, with the scan's blocks
    when they all lie in the grid and with ValueError when one does not. *)
Lemma scan_refines (df : RawGrid) (fuel : nat) :
  forall (i : nat) (acc : list Block),
    (num_columns df - i <= fuel)%nat ->
    (blocks_fit (num_columns df) (spec_scan fuel (columns df) i) = true ->
     exists bs, scan parse_datetime parse_float fuel df i acc = Some (Ok (acc ++ bs))
                /\ map range_of bs = spec_scan fuel (columns df) i)
    /\ (blocks_fit (num_columns df) (spec_scan fuel (columns df) i) = false ->
        scan parse_datetime parse_float fuel df i acc = Some (Raise ValueError)).
Proof.
  induction fuel as [| fuel IH]; intros i acc Hfuel.
  - simpl. unfold num_columns in *.
    rewrite (proj2 (Nat.leb_le _ _)) by lia. split.
    + intros _. exists []. rewrite app_nil_r. auto.
    + discriminate.
  - cbn [scan spec_scan]. unfold num_columns in *.
    destruct (Nat.leb_spec (List.length (columns df)) i) as [Hge | Hlt].
    + split; [| discriminate]. intros _. exists []. rewrite app_nil_r. auto.
    + destruct (nth i (columns df) None) as [h |] eqn:Hh; cbn [is_blank].
      * destruct (PyStr.is_empty (PyStr.strip h)) eqn:Hblank.
        { apply IH. lia. }
        rewrite !blocks_fit_cons. cbn [snd]. rewrite block_fits by lia.
        destruct (Nat.leb_spec (i + 3) (List.length (columns df))) as [Hin | Hout].
        -- rewrite slice3_inside by lia. unfold rename3. cbn [List.length Nat.eqb].
           cbn [default]. rewrite andb_true_l.
           match goal with
           | |- context [scan _ _ fuel df (i + 4)%nat (acc ++ [?b])] =>
               destruct (IH (i + 4)%nat (acc ++ [b]) ltac:(lia)) as [IHok IHraise];
               set (blk := b) in *
           end.
           split.
           ++ intros Hfit. destruct (IHok Hfit) as (bs & Hscan & Hmap).
              exists (blk :: bs). rewrite Hscan, <- app_assoc. split; [reflexivity |].
              cbn [map]. rewrite Hmap. reflexivity.
           ++ intros Hfit. apply IHraise, Hfit.
        -- unfold rename3. rewrite slice3_short by lia.
           split; [discriminate | reflexivity].
      * apply IH. lia.
Qed.

(** The loader never runs out of passes: it returns the specification's
    blocks, or raises when a block is cut by the end of the grid. *)
Lemma split_blocks_total (df : RawGrid) :
  block_ranges (split_blocks parse_datetime parse_float df)
  = if blocks_fit (num_columns df) (spec_blocks (columns df))
    then Some (Ok (spec_blocks (columns df)))
    else Some (Raise ValueError).
Proof.
  unfold split_blocks, spec_blocks.
  destruct (scan_refines df (num_columns df) 0%nat [] ltac:(lia)) as [Hok Hraise].
  fold (num_columns df).
  destruct (blocks_fit _ _) eqn:Hfit.
  - destruct (Hok eq_refl) as (bs & Hscan & Hmap). rewrite Hscan. cbn [block_ranges app].
    rewrite Hmap. reflexivity.
  - rewrite (Hraise eq_refl). reflexivity.
Qed.


Lemma spec_scan_from (headers : list (option string)) (fuel : nat) :
  forall i b c, In b (spec_scan fuel headers i) -> In c (snd b) -> (i <= c)%nat.
Proof.
  induction fuel as [| fuel IH]; intros i b c Hb Hc; cbn [spec_scan] in Hb.
  - destruct (_ <=? _)%nat; destruct Hb.
  - destruct (_ <=? _)%nat; [destruct Hb |].
    destruct (nth i headers None) as [h |].
    + destruct (PyStr.is_empty (PyStr.strip h)).
      * specialize (IH _ _ _ Hb Hc). lia.
      * destruct Hb as [<- | Hb].
        -- cbn in Hc. lia.
        -- specialize (IH _ _ _ Hb Hc). lia.
    + specialize (IH _ _ _ Hb Hc). lia.
Qed.

Lemma spec_scan_no_overlap (headers : list (option string)) (fuel : nat) :
  forall i, no_overlap (spec_scan fuel headers i).
Proof.
  induction fuel as [| fuel IH]; intros i; cbn [spec_scan].
  - destruct (_ <=? _)%nat; intros j k b1 b2 c _ Hj; destruct j; discriminate Hj.
  - destruct (_ <=? _)%nat.
    { intros j k b1 b2 c _ Hj; destruct j; discriminate Hj. }
    destruct (nth i headers None) as [h |]; [| apply IH].
    destruct (PyStr.is_empty (PyStr.strip h)); [apply IH |].
    intros j k b1 b2 c Hjk Hj Hk Hc1 Hc2.
    destruct k as [| k]; [lia |]. cbn in Hk.
    destruct j as [| j].
    + injection Hj as <-. cbn in Hc1.
      apply list_elem_of_lookup_2, list_elem_of_In in Hk.
      pose proof (spec_scan_from _ _ _ _ _ Hk Hc2). lia.
    + cbn in Hj. apply (IH (i + 4)%nat j k b1 b2 c); auto. lia.
Qed.

Lemma spec_blocks_no_overlap (headers : list (option string)) :
  no_overlap (spec_blocks headers).
Proof. apply spec_scan_no_overlap. Qed.

(** ** Normalisation *)

Lemma combine_map_self {A B} (f : A -> B) (l : list A) :
  combine (map f l) l = map (fun a => (f a, a)) l.
Proof. induction l as [| a l IH]; cbn; [| rewrite IH]; reflexivity. Qed.

Lemma dropna_date_In (company_df : list RawRow) (r : RawRow) :
  In r (dropna_date company_df) <-> In r company_df /\ isna (raw_date r) = false.
Proof.
  unfold dropna_date. rewrite filter_In, negb_true_iff. reflexivity.
Qed.

Lemma dropna_date_sublist (company_df : list RawRow) :
  dropna_date company_df `sublist_of` company_df.
Proof.
  induction company_df as [| r l IH]; cbn.
  - constructor.
  - destruct (negb (isna (raw_date r))); now constructor.
Qed.

Lemma coerce_kept (ctx : list cell) (kept : list RawRow) :
  List.Forall (fun r => isna (raw_date r) = false) kept ->
  map (fun '(d, r) => mkRow d (to_numeric parse_float (raw_eps r))
                            (to_numeric parse_float (raw_price r)))
      (combine (map (fun c => if isna c then None else parse_datetime ctx c)
                    (map raw_date kept)) kept)
  = map (coerce_row parse_datetime parse_float ctx) kept.
Proof.
  induction 1 as [| r l Hr _ IH]; cbn; [reflexivity |].
  rewrite Hr, IH. reflexivity.
Qed.

Lemma normalize_map (company_df : list RawRow) :
  normalize parse_datetime parse_float company_df
  = map (coerce_row parse_datetime parse_float (map raw_date (dropna_date company_df)))
        (dropna_date company_df).
Proof.
  unfold normalize, to_datetime. apply coerce_kept.
  apply List.Forall_forall. intros r Hr. apply dropna_date_In in Hr. tauto.
Qed.

End LoaderFacts.

(** C8.  Block discovery on a header line with an empty cell.  The column
    of an empty header cell is labelled [Unnamed: k], which is no blank
    label, so the scan does not step over it but starts a block there.  The
    header line [,A,,,] gives the block [Unnamed: 0] on 0,1,2 and then, at
    the label of column 4, a block cut by the end of the grid: ValueError.
    Three columns wider, the loader returns and its blocks are
    [Unnamed: 0] on 0,1,2 and [Unnamed: 4] on 4,5,6: A is no company. *)
Theorem empty_header_cell_starts_a_block
    (parse_datetime : list cell -> cell -> option Timestamp)
    (parse_float : string -> option float) (rows : list (list cell)) :
  block_ranges (split_blocks parse_datetime parse_float
                  (mkRawGrid (header_labels cells_blank_A) rows))
  = Some (Raise ValueError)
  /\ block_ranges (split_blocks parse_datetime parse_float
                     (mkRawGrid (header_labels cells_blank_A_wide) rows))
     = Some (Ok [("Unnamed: 0"%string, [0; 1; 2]%nat);
                 ("Unnamed: 4"%string, [4; 5; 6]%nat)]).
Proof.
  split; rewrite split_blocks_total; reflexivity.
Qed.

(** C2.  A block cut by the end of the grid: the header line [A,] gives a
    frame of two columns, and naming its columns raises ValueError. *)
Theorem short_block_raises
    (parse_datetime : list cell -> cell -> option Timestamp)
    (parse_float : string -> option float) (rows : list (list cell)) :
  split_blocks parse_datetime parse_float (mkRawGrid headers_short rows)
  = Some (Raise ValueError).
Proof. reflexivity. Qed.

(** C1 (as amended).  The series holds exactly the rows whose Date cell is
    not missing, each with its three cells coerced; a kept row whose date
    does not parse is in the series with a null date. *)
Theorem normalize_keeps_dated_cells
    (parse_datetime : list cell -> cell -> option Timestamp)
    (parse_float : string -> option float) (company_df : list RawRow) :
  let kept := dropna_date company_df in
  let series := normalize parse_datetime parse_float company_df in
  (forall r, In r kept <-> In r company_df /\ isna (raw_date r) = false)
  /\ List.length series = List.length kept
  /\ (forall k r,
        kept !! k = Some r ->
        series !! k = Some {| Date := parse_datetime (map raw_date kept) (raw_date r);
                              EPS := to_numeric parse_float (raw_eps r);
                              SharePrice := to_numeric parse_float (raw_price r) |}).
Proof.
  cbv zeta. rewrite normalize_map. split; [| split].
  - intros r. apply dropna_date_In.
  - apply length_map.
  - intros k r Hk. rewrite list_lookup_fmap, Hk. reflexivity.
Qed.

Lemma normalize_keeps_dated_cells_witness :
  normalize sample_parse_datetime sample_parse_float rows_bad_date !! 1%nat
  = Some {| Date := None; EPS := F64.of_Z 2; SharePrice := F64.of_Z 20 |}.
Proof.
  exact (proj2 (proj2 (normalize_keeps_dated_cells
                         sample_parse_datetime sample_parse_float rows_bad_date))
           1%nat (mkRawRow (Str "TBD") (num 2) (num 20)) eq_refl).
Defined.

(** C1 as stated fails: the row whose date cell reads [TBD] is in the
    series, with a null date. *)
Lemma date_drop_counterexample :
  ~ (forall r,
        In r (normalize sample_parse_datetime sample_parse_float rows_bad_date) ->
        Date r <> None).
Proof.
  intros H.
  apply (H {| Date := None; EPS := F64.of_Z 2; SharePrice := F64.of_Z 20 |});
    [| reflexivity].
  vm_compute. right. left. reflexivity.
Qed.

(** C3 (as amended).  The series lists the kept rows in the order of the
    block: it is the image, row by row, of a subsequence of the block. *)
Theorem normalize_keeps_row_order
    (parse_datetime : list cell -> cell -> option Timestamp)
    (parse_float : string -> option float) (company_df : list RawRow) :
  exists kept,
    kept `sublist_of` company_df
    /\ normalize parse_datetime parse_float company_df
       = map (coerce_row parse_datetime parse_float (map raw_date kept)) kept.
Proof.
  exists (dropna_date company_df). split.
  - apply dropna_date_sublist.
  - apply normalize_map.
Qed.

(** C3 as stated fails: a block with its later row first gives a series
    with the later row first. *)
Lemma sorted_series_counterexample :
  ~ date_sorted (normalize sample_parse_datetime sample_parse_float rows_unsorted).
Proof.
  intros H. vm_compute in H.
  inversion H as [| ? ? _ Hhd]; subst.
  inversion Hhd as [| ? ? Hle]; subst. discriminate Hle.
Qed.

(** * The aggregated frame: claims *)

Lemma last_valid_col (col : Row -> float) (g : list Row) :
  last_non_null col g (last_valid (map col g)).
Proof.
  induction g as [| r g IH] using rev_ind.
  - left. split; [constructor | reflexivity].
  - rewrite map_app. cbn [map]. rewrite last_valid_snoc.
    destruct (F64.is_nan (col r)) eqn:Hr.
    + destruct IH as [[Hall Hv] | (pre & y & post & -> & Hy & Hpost & Hv)].
      * left. split; [| exact Hv]. apply List.Forall_app. split; [exact Hall |].
        now repeat constructor.
      * right. exists pre, y, (post ++ [r]). rewrite <- app_assoc. cbn.
        repeat split; auto. apply List.Forall_app. split; [exact Hpost |].
        now repeat constructor.
    + right. exists g, r, []. repeat split; auto.
Qed.

Lemma last_valid_last (col : Row -> float) (g : list Row) (r : Row) :
  F64.is_nan (col r) = false -> last_valid (map col (g ++ [r])) = col r.
Proof.
  intros Hr. rewrite map_app. cbn [map]. rewrite last_valid_snoc, Hr. reflexivity.
Qed.

Lemma period_group_dated freq cy s e df k r :
  In r (period_group freq cy s e df k) ->
  exists t, Date r = Some t /\ s <= year t <= e /\ period_of freq t = k.
Proof.
  intros Hr. apply period_group_In in Hr as (_ & Hrange & _ & Hkey).
  apply in_year_range_spec in Hrange as (t & Ht & Hy).
  exists t. repeat split; try tauto; try lia.
  unfold period_key in Hkey. rewrite Ht in Hkey. cbn in Hkey. congruence.
Qed.

(** The date column of a group is never missing, so its ['last'] is the date
    of the last row. *)
Lemma group_last_date freq cy s e df k g r :
  period_group freq cy s e df k = g ++ [r] ->
  last_valid_date (map Date (g ++ [r])) = Date r.
Proof.
  intros Hg.
  assert (Hr : In r (period_group freq cy s e df k)).
  { rewrite Hg. apply in_or_app. right. now left. }
  apply period_group_dated in Hr as (t & Ht & _).
  rewrite map_app. cbn [map]. rewrite Ht. apply last_valid_date_snoc.
Qed.

Lemma nonempty_last {A} (l : list A) : l <> [] -> exists g r, l = g ++ [r].
Proof.
  intros H. destruct (exists_last H) as (g & r & ->). eauto.
Qed.

(** C10.  Only dated observations are grouped: every row of the frame that
    is grouped has a date whose year lies in the range, every observation
    of the period of an aggregated row is such a row of the series, and the
    aggregated date is never null. *)
Theorem aggregated_rows_are_dated
    (data_frequency : Frequency) (current_year start_year end_year : Z)
    (company_df : list Row) :
  (forall r key,
      In (r, key) (sorted_frame data_frequency current_year start_year end_year company_df) ->
      exists t, Date r = Some t /\ start_year <= year t <= end_year)
  /\ (forall a,
        In a (aggregate data_frequency current_year start_year end_year company_df) ->
        (exists t, agg_Date a = Some t)
        /\ period_group data_frequency current_year start_year end_year company_df
             (Period a) <> []
        /\ forall r,
            In r (period_group data_frequency current_year start_year end_year
                    company_df (Period a)) ->
            In r company_df
            /\ exists t, Date r = Some t /\ start_year <= year t <= end_year).
Proof.
  split.
  - intros r key Hr. apply frame_In in Hr as (_ & Hrange & _).
    now apply in_year_range_spec.
  - intros a Ha. apply aggregate_In in Ha as [Hne Ha]. split; [| split].
    + rewrite Ha. cbn [agg_Date].
      destruct data_frequency; cbn [representative_date]; [eauto |].
      destruct (nonempty_last _ Hne) as (g & r & Hg). rewrite Hg.
      erewrite group_last_date by exact Hg.
      assert (Hr : In r (period_group Annual current_year start_year end_year
                           company_df (Period a))).
      { rewrite Hg. apply in_or_app. right. now left. }
      apply period_group_dated in Hr as (t & Ht & _). eauto.
    + exact Hne.
    + intros r Hr. split.
      * now apply period_group_In in Hr.
      * apply period_group_dated in Hr as (t & Ht & Hy & _). eauto.
Qed.

Lemma aggregated_rows_are_dated_witness :
  exists t,
    agg_Date {| Period := 212; agg_EPS := F64.of_Z 1; agg_SharePrice := F64.of_Z 12;
                agg_Date := Some (end_time 212) |} = Some t.
Proof.
  refine (proj1 (proj2 (aggregated_rows_are_dated Quarterly 2026 2023 2023 series_gap)
                   {| Period := 212; agg_EPS := F64.of_Z 1; agg_SharePrice := F64.of_Z 12;
                      agg_Date := Some (end_time 212) |} _)).
  vm_compute. left. reflexivity.
Defined.

(** C6.  Annual aggregation groups no observation of the current year or
    later and has no row for such a year, whatever the end of the range;
    every earlier year of the range that has an observation has its row.
    Quarterly aggregation drops nothing: every dated observation of the
    range is grouped and its quarter has a row, the current year
    included. *)
Theorem annual_excludes_current_year
    (current_year start_year end_year : Z) (company_df : list Row) :
  (forall k r,
      In r (period_group Annual current_year start_year end_year company_df k) ->
      exists t, Date r = Some t /\ year t < current_year)
  /\ (forall a,
        In a (aggregate Annual current_year start_year end_year company_df) ->
        Period a < current_year)
  /\ (forall r t,
        In r company_df -> Date r = Some t -> start_year <= year t <= end_year ->
        year t < current_year ->
        exists a, In a (aggregate Annual current_year start_year end_year company_df)
                  /\ Period a = year t)
  /\ (forall r t,
        In r company_df -> Date r = Some t -> start_year <= year t <= end_year ->
        In r (period_group Quarterly current_year start_year end_year company_df
                (to_period_Q t))
        /\ exists a, In a (aggregate Quarterly current_year start_year end_year company_df)
                     /\ Period a = to_period_Q t).
Proof.
  split; [| split; [| split]].
  - intros k r Hr. apply period_group_In in Hr as (_ & _ & Hb & _).
    now apply before_year_spec, Hb.
  - intros a Ha. apply aggregate_In in Ha as [Hne _].
    destruct (period_group Annual current_year start_year end_year company_df (Period a))
      as [| r g] eqn:Hg; [congruence |].
    assert (Hr : In r (period_group Annual current_year start_year end_year
                         company_df (Period a))) by (rewrite Hg; now left).
    pose proof Hr as Hr'.
    apply period_group_dated in Hr as (t & Ht & _ & Hk).
    apply period_group_In in Hr' as (_ & _ & Hb & _).
    apply before_year_spec in Hb as (t' & Ht' & Hlt); [| reflexivity].
    cbn in Hk. congruence.
  - intros r t Hr Ht Hy Hlt. apply aggregate_has_period.
    assert (In r (period_group Annual current_year start_year end_year company_df (year t))).
    { apply period_group_In. repeat split; auto.
      - apply in_year_range_spec. eauto.
      - intros _. apply before_year_spec. eauto.
      - unfold period_key. rewrite Ht. reflexivity. }
    intros Hnil. rewrite Hnil in H. destruct H.
  - intros r t Hr Ht Hy.
    assert (In r (period_group Quarterly current_year start_year end_year company_df
                    (to_period_Q t))).
    { apply period_group_In. repeat split; auto.
      - apply in_year_range_spec. eauto.
      - discriminate.
      - unfold period_key. rewrite Ht. reflexivity. }
    split; [assumption |]. apply aggregate_has_period.
    intros Hnil. rewrite Hnil in H. destruct H.
Qed.

Lemma annual_excludes_current_year_witness :
  aggregate Annual 2023 2023 2023 series_gap = []
  /\ exists a, In a (aggregate Quarterly 2023 2023 2023 series_gap)
               /\ Period a = to_period_Q (mkTimestamp 2023 1 1 0).
Proof.
  split; [reflexivity |].
  refine (proj2 (proj2 (proj2 (proj2
            (annual_excludes_current_year 2023 2023 2023 series_gap)))
            (obs (at_midnight 2023 1 1) (F64.of_Z 1) (F64.of_Z 10))
            (mkTimestamp 2023 1 1 0) _ eq_refl _)).
  - left. reflexivity.
  - cbn. lia.
Defined.

Lemma end_time_of_date (t : Timestamp) :
  1 <= month t <= 12 ->
  end_time (to_period_Q t)
  = {| year := year t;
       month := 3 * ((month t - 1) / 3 + 1);
       day := if (3 * ((month t - 1) / 3 + 1) =? 6) || (3 * ((month t - 1) / 3 + 1) =? 9)
              then 30 else 31;
       nanos := nanos_per_day - 1 |}.
Proof.
  intros Hm. unfold end_time, to_period_Q, period_year, period_quarter.
  assert (Hq : 0 <= (month t - 1) / 3 < 4).
  { split; [apply Z.div_pos; lia | apply Z.div_lt_upper_bound; lia]. }
  set (q := (month t - 1) / 3) in *.
  replace (((year t - 1970) * 4 + q) / 4) with (year t - 1970)
    by (apply Z.div_unique with (r := q); lia).
  replace (((year t - 1970) * 4 + q) mod 4) with q
    by (apply Z.mod_unique with (q := year t - 1970); lia).
  f_equal. lia.
Qed.

Lemma annual_row_of_observation
    (current_year start_year end_year : Z) (company_df : list Row)
    (r : Row) (t : Timestamp) :
  In r company_df -> Date r = Some t -> start_year <= year t <= end_year ->
  year t < current_year ->
  exists a r_last t_last,
    In a (aggregate Annual current_year start_year end_year company_df)
    /\ Period a = year t
    /\ In r_last company_df /\ Date r_last = Some t_last /\ year t_last = year t
    /\ agg_Date a = Some t_last
    /\ forall r' t',
        In r' company_df -> Date r' = Some t' -> start_year <= year t' <= end_year ->
        year t' = year t -> ts_leb t' t_last = true.
Proof.
  intros Hr Ht Hy Hlt.
  assert (Hmember : forall r' t',
             In r' company_df -> Date r' = Some t' ->
             start_year <= year t' <= end_year -> year t' = year t ->
             In r' (period_group Annual current_year start_year end_year
                      company_df (year t))).
  { intros r' t' Hr' Ht' Hy' Hsame. apply period_group_In. repeat split; auto.
    - apply in_year_range_spec. eauto.
    - intros _. apply before_year_spec. exists t'. split; [exact Ht' | lia].
    - unfold period_key. rewrite Ht'. cbn. congruence. }
  pose proof (Hmember r t Hr Ht Hy eq_refl) as Hg.
  assert (Hne : period_group Annual current_year start_year end_year company_df (year t)
                <> []).
  { intros Hnil. rewrite Hnil in Hg. destruct Hg. }
  destruct (aggregate_has_period Annual current_year start_year end_year company_df
              (year t) Hne) as (a & Ha & Hk).
  pose proof Ha as Heq. apply aggregate_In in Heq as [_ Heq]. rewrite Hk in Heq.
  destruct (nonempty_last _ Hne) as (g & r_last & Hlast).
  assert (Hin : In r_last (period_group Annual current_year start_year end_year
                             company_df (year t))).
  { rewrite Hlast. apply in_or_app. right. now left. }
  pose proof Hin as Hdf. apply period_group_In in Hdf as [Hdf _].
  apply period_group_dated in Hin as (t_last & Htl & _ & Hkl). cbn in Hkl.
  exists a, r_last, t_last. repeat split; auto.
  - rewrite Heq. cbn [agg_Date representative_date]. rewrite Hlast.
    erewrite group_last_date by exact Hlast. exact Htl.
  - intros r' t' Hr' Ht' Hy' Hsame.
    pose proof (period_group_sorted Annual current_year start_year end_year
                  company_df (year t)) as Hsorted.
    rewrite Hlast in Hsorted.
    pose proof (sorted_last_max Date g r_last Hsorted r') as Hmax.
    rewrite <- Hlast in Hmax. specialize (Hmax (Hmember r' t' Hr' Ht' Hy' Hsame)).
    unfold date_le in Hmax. rewrite Ht', Htl in Hmax. exact Hmax.
Qed.

Lemma quarterly_row_of_observation
    (current_year start_year end_year : Z) (company_df : list Row)
    (r : Row) (t : Timestamp) :
  In r company_df -> Date r = Some t -> start_year <= year t <= end_year ->
  exists a,
    In a (aggregate Quarterly current_year start_year end_year company_df)
    /\ Period a = to_period_Q t
    /\ agg_Date a = Some (end_time (to_period_Q t)).
Proof.
  intros Hr Ht Hy.
  assert (Hg : In r (period_group Quarterly current_year start_year end_year
                       company_df (to_period_Q t))).
  { apply period_group_In. repeat split; auto.
    - apply in_year_range_spec. eauto.
    - discriminate.
    - unfold period_key. rewrite Ht. reflexivity. }
  assert (Hne : period_group Quarterly current_year start_year end_year company_df
                  (to_period_Q t) <> []).
  { intros Hnil. rewrite Hnil in Hg. destruct Hg. }
  destruct (aggregate_has_period Quarterly current_year start_year end_year company_df
              (to_period_Q t) Hne) as (a & Ha & Hk).
  exists a. split; [exact Ha |]. split; [exact Hk |].
  apply aggregate_In in Ha as [_ Heq]. rewrite Heq. cbn [agg_Date representative_date].
  now rewrite Hk.
Qed.

(** C7.  The date of an aggregated row.
    Annual: every observation of the range in a year before the current
    one has the row of its year, and the date of that row is the date of an
    observation of that year which no observation of the year exceeds; the
    date of any row is the date of the last observation of its group.
    Quarterly: every dated observation of the range has the row of its
    quarter, and the date of that row is the last nanosecond of the last day
    of the quarter (31 March, 30 June, 30 September, 31 December) in the
    year of the observation, whatever the day of the observation; for every
    date of January to March 2023 that is the last nanosecond of
    31 March 2023. *)
Theorem representative_date_of_period
    (current_year start_year end_year : Z) (company_df : list Row) :
  (forall r t,
      In r company_df -> Date r = Some t -> start_year <= year t <= end_year ->
      year t < current_year ->
      exists a r_last t_last,
        In a (aggregate Annual current_year start_year end_year company_df)
        /\ Period a = year t
        /\ In r_last company_df /\ Date r_last = Some t_last /\ year t_last = year t
        /\ agg_Date a = Some t_last
        /\ forall r' t',
            In r' company_df -> Date r' = Some t' ->
            start_year <= year t' <= end_year -> year t' = year t ->
            ts_leb t' t_last = true)
  /\ (forall a,
        In a (aggregate Annual current_year start_year end_year company_df) ->
        exists g r,
          period_group Annual current_year start_year end_year company_df (Period a)
          = g ++ [r]
          /\ agg_Date a = Date r
          /\ forall r', In r' (g ++ [r]) -> date_le (Date r') (Date r))
  /\ (forall r t,
        In r company_df -> Date r = Some t -> start_year <= year t <= end_year ->
        1 <= month t <= 12 ->
        exists a,
          In a (aggregate Quarterly current_year start_year end_year company_df)
          /\ Period a = to_period_Q t
          /\ agg_Date a
             = Some {| year := year t;
                       month := 3 * ((month t - 1) / 3 + 1);
                       day := if (3 * ((month t - 1) / 3 + 1) =? 6)
                                 || (3 * ((month t - 1) / 3 + 1) =? 9)
                              then 30 else 31;
                       nanos := nanos_per_day - 1 |})
  /\ (forall a,
        In a (aggregate Quarterly current_year start_year end_year company_df) ->
        agg_Date a = Some (end_time (Period a)))
  /\ (forall t1 t2,
        1 <= month t1 <= 12 -> 1 <= month t2 <= 12 ->
        year t1 = year t2 -> (month t1 - 1) / 3 = (month t2 - 1) / 3 ->
        end_time (to_period_Q t1) = end_time (to_period_Q t2))
  /\ (forall t,
        year t = 2023 -> 1 <= month t <= 3 ->
        end_time (to_period_Q t)
        = {| year := 2023; month := 3; day := 31; nanos := nanos_per_day - 1 |}).
Proof.
  split; [| split; [| split; [| split; [| split]]]].
  - intros r t. apply annual_row_of_observation.
  - intros a Ha. apply aggregate_In in Ha as [Hne Ha].
    destruct (nonempty_last _ Hne) as (g & r & Hg).
    exists g, r. split; [exact Hg |]. split.
    + rewrite Ha. cbn [agg_Date representative_date]. rewrite Hg.
      eapply group_last_date, Hg.
    + apply sorted_last_max. rewrite <- Hg. apply period_group_sorted.
  - intros r t Hr Ht Hy Hm.
    destruct (quarterly_row_of_observation current_year start_year end_year
                company_df r t Hr Ht Hy) as (a & Ha & Hk & Hd).
    exists a. split; [exact Ha |]. split; [exact Hk |].
    rewrite Hd, end_time_of_date by exact Hm. reflexivity.
  - intros a Ha. apply aggregate_In in Ha as [_ Ha]. rewrite Ha. reflexivity.
  - intros t1 t2 Hm1 Hm2 Hy Hq.
    rewrite !end_time_of_date by assumption. rewrite Hy, Hq. reflexivity.
  - intros t Hy Hm. rewrite end_time_of_date by lia.
    assert (Hq : (month t - 1) / 3 = 0) by (apply Z.div_small; lia).
    rewrite Hq, Hy. reflexivity.
Qed.

Lemma representative_date_of_period_witness :
  exists a,
    In a (aggregate Quarterly 2026 2023 2023 series_gap)
    /\ Period a = 212
    /\ agg_Date a
       = Some {| year := 2023; month := 3; day := 31; nanos := nanos_per_day - 1 |}.
Proof.
  refine (proj1 (proj2 (proj2 (representative_date_of_period 2026 2023 2023 series_gap)))
            (obs (at_midnight 2023 3 30) F64.nan (F64.of_Z 12))
            (mkTimestamp 2023 3 30 0) _ eq_refl _ _).
  - right. left. reflexivity.
  - cbn. lia.
  - cbn. lia.
Defined.

(** C4 (as amended).  Every period with an observation in the filtered
    series has its row, also when all its values are null.  The EPS of the
    row is the EPS of the latest observation of the period whose EPS is not
    null, null when there is none, and likewise the share price; when the
    latest observation of the period has an EPS, that is the EPS of the
    row. *)
Theorem last_non_null_of_period
    (data_frequency : Frequency) (current_year start_year end_year : Z)
    (company_df : list Row) :
  (forall k,
      period_group data_frequency current_year start_year end_year company_df k <> [] ->
      exists a,
        In a (aggregate data_frequency current_year start_year end_year company_df)
        /\ Period a = k)
  /\ (forall a,
        In a (aggregate data_frequency current_year start_year end_year company_df) ->
        let g := period_group data_frequency current_year start_year end_year
                   company_df (Period a) in
        g <> []
        /\ StronglySorted (by_date Date) g
        /\ last_non_null EPS g (agg_EPS a)
        /\ last_non_null SharePrice g (agg_SharePrice a)
        /\ (forall g0 r, g = g0 ++ [r] -> F64.is_nan (EPS r) = false -> agg_EPS a = EPS r)
        /\ (forall g0 r, g = g0 ++ [r] -> F64.is_nan (SharePrice r) = false ->
            agg_SharePrice a = SharePrice r)).
Proof.
  split.
  - apply aggregate_has_period.
  - intros a Ha. cbv zeta. apply aggregate_In in Ha as [Hne Ha].
    split; [exact Hne |]. split; [apply period_group_sorted |].
    destruct a as [k e p d]. cbn [Period agg_EPS agg_SharePrice] in Ha |- *.
    injection Ha as He Hp _. subst e p.
    repeat split.
    + apply last_valid_col.
    + apply last_valid_col.
    + intros g0 r -> Hr. now apply last_valid_last.
    + intros g0 r -> Hr. now apply last_valid_last.
Qed.

Lemma last_non_null_of_period_witness :
  exists a, In a (aggregate Quarterly 2026 2023 2023 series_gap) /\ Period a = 212.
Proof.
  refine (proj1 (last_non_null_of_period Quarterly 2026 2023 2023 series_gap) 212 _).
  vm_compute. discriminate.
Defined.

(** C4 as stated fails: in 2023Q1 the observation of 30 March is the latest
    and has no EPS, and the row of the quarter carries the EPS of
    1 January. *)
Lemma latest_observation_counterexample :
  ~ values_of_latest_observation Quarterly 2026 2023 2023 series_gap.
Proof.
  intros H.
  destruct (H {| Period := 212; agg_EPS := F64.of_Z 1; agg_SharePrice := F64.of_Z 12;
                 agg_Date := Some (end_time 212) |}
              (obs (at_midnight 2023 3 30) F64.nan (F64.of_Z 12))) as [Heps _].
  - vm_compute. left. reflexivity.
  - vm_compute. right. left. reflexivity.
  - intros r' Hr'. vm_compute in Hr'.
    destruct Hr' as [<- | [<- | []]]; reflexivity.
  - discriminate Heps.
Qed.

(** * Growth rates *)

Lemma lookup_combine {A B} (l1 : list A) (l2 : list B) (k : nat) :
  combine l1 l2 !! k
  = match l1 !! k, l2 !! k with
    | Some a, Some b => Some (a, b)
    | _, _ => None
    end.
Proof.
  revert l2 k. induction l1 as [| a l1 IH]; intros [| b l2] [| k]; cbn; try reflexivity.
  - destruct (l1 !! k); reflexivity.
  - apply IH.
Qed.

Lemma length_pad_from (prev : float) (xs : list float) :
  List.length (pad_from prev xs) = List.length xs.
Proof.
  revert prev. induction xs as [| x t IH]; intros prev; cbn; [| rewrite IH]; reflexivity.
Qed.

(** The padded value of a row is the last value not missing among the rows
    up to it. *)
Lemma pad_from_lookup (prev : float) (xs : list float) (k : nat) :
  (k < List.length xs)%nat ->
  pad_from prev xs !! k
  = Some (foldl (fun acc x => if F64.is_nan x then acc else x) prev (take (S k) xs)).
Proof.
  revert prev k. induction xs as [| x t IH]; intros prev k Hk; cbn in Hk; [lia |].
  destruct k as [| k]; cbn.
  - destruct t; reflexivity.
  - rewrite IH by lia. reflexivity.
Qed.

Lemma pad_lookup (xs : list float) (k : nat) :
  (k < List.length xs)%nat -> pad xs !! k = Some (last_valid (take (S k) xs)).
Proof. apply pad_from_lookup. Qed.

Lemma combine_removelast {A} (t : list A) :
  forall d, combine t (removelast (d :: t)) = combine t (d :: t).
Proof.
  induction t as [| x t IH]; intros d; [reflexivity |].
  change (removelast (d :: x :: t)) with (d :: removelast (x :: t)).
  cbn [combine]. f_equal. apply IH.
Qed.

Lemma combine_shift (data : list float) :
  combine data (shift data) = combine data (F64.nan :: data).
Proof.
  destruct data as [| d t]; [reflexivity |].
  cbn [shift combine]. f_equal. apply combine_removelast.
Qed.

Lemma div_nan (x : float) : F64.div x F64.nan = F64.nan.
Proof. destruct x; reflexivity. Qed.

Lemma growth_rate_lookup_0 (xs : list float) :
  xs <> [] -> growth_rate xs !! 0%nat = Some F64.nan.
Proof.
  intros Hne. unfold growth_rate, pct_change. rewrite combine_shift.
  destruct xs as [| x t]; [congruence |]. cbn [pad pad_from combine map lookup list_lookup].
  rewrite div_nan. reflexivity.
Qed.

Lemma growth_rate_lookup_S (xs : list float) (k : nat) :
  growth_rate xs !! S k
  = match pad xs !! k, pad xs !! S k with
    | Some prev, Some curr => Some (pct prev curr)
    | _, _ => None
    end.
Proof.
  unfold growth_rate, pct_change. rewrite combine_shift.
  rewrite !list_lookup_fmap, lookup_combine. cbn [lookup list_lookup].
  change (list_lookup k (pad xs)) with (pad xs !! k).
  destruct (pad xs !! S k) as [c |] eqn:Hc; cbn.
  - destruct (pad xs !! k) as [p |]; reflexivity.
  - destruct (pad xs !! k); reflexivity.
Qed.

Lemma length_growth_rate (xs : list float) :
  List.length (growth_rate xs) = List.length xs.
Proof.
  unfold growth_rate, pct_change. rewrite combine_shift.
  rewrite !length_map, length_combine. cbn [List.length].
  unfold pad. rewrite length_pad_from. lia.
Qed.

Lemma map_fst_combine_le {A B C} (f : A -> C) (l1 : list A) (l2 : list B) :
  (List.length l1 <= List.length l2)%nat ->
  map (fun r => f (fst r)) (combine l1 l2) = map f l1.
Proof.
  revert l2. induction l1 as [| a l1 IH]; intros [| b l2] Hlen; cbn in *;
    try reflexivity; try lia.
  rewrite IH by lia. reflexivity.
Qed.

Lemma add_growth_lookup (df : list AggRow) (k : nat) :
  add_growth df !! k
  = match df !! k, growth_rate (map agg_EPS df) !! k,
          growth_rate (map agg_SharePrice df) !! k with
    | Some a, Some e, Some p => Some (mkGrowthRow a e p)
    | _, _, _ => None
    end.
Proof.
  unfold add_growth, add_price_growth, add_eps_growth.
  rewrite map_fst_combine_le by (rewrite length_growth_rate, length_map; lia).
  rewrite list_lookup_fmap, !lookup_combine.
  destruct (df !! k) as [a |]; [| reflexivity].
  destruct (growth_rate (map agg_EPS df) !! k) as [e |]; [| reflexivity].
  destruct (growth_rate (map agg_SharePrice df) !! k) as [p |]; reflexivity.
Qed.

Lemma length_add_growth (df : list AggRow) :
  List.length (add_growth df) = List.length df.
Proof.
  unfold add_growth, add_price_growth, add_eps_growth.
  rewrite length_map, !length_combine, !length_growth_rate, !length_map, length_combine.
  rewrite length_growth_rate, length_map. lia.
Qed.

Lemma replace_inf_not_nan (x : float) :
  negb (F64.is_nan (replace_inf x)) = F64.is_finite x.
Proof. destruct x; reflexivity. Qed.

Lemma has_growth_point (curr : AggRow) (e p : float) :
  has_growth (growth_point curr e p) = F64.is_finite e && F64.is_finite p.
Proof.
  unfold has_growth, growth_point. cbn. now rewrite !replace_inf_not_nan.
Qed.

Lemma replace_inf_finite (x : float) : F64.is_finite x = true -> replace_inf x = x.
Proof. destruct x; cbn; intros H; try discriminate H; reflexivity. Qed.

(** A null or zero base and a null current value give no finite growth. *)
Lemma pct_not_finite (prev curr : float) :
  F64.is_nan prev = true \/ F64.is_zero prev = true \/ F64.is_nan curr = true ->
  F64.is_finite (pct prev curr) = false.
Proof.
  intros [H | [H | H]].
  - destruct prev; try discriminate H. destruct curr; reflexivity.
  - destruct prev; try discriminate H. destruct curr; reflexivity.
  - destruct curr; try discriminate H. destruct prev; reflexivity.
Qed.

Lemma filter_length_le {A} (p : A -> bool) (l : list A) :
  (List.length (List.filter p l) <= List.length l)%nat.
Proof.
  induction l as [| x l IH]; cbn; [lia |]. destruct (p x); cbn; lia.
Qed.

Lemma growth_In (aggregated_df : list AggRow) (g : GrowthRow) :
  In g (growth aggregated_df) <->
  exists k curr pe ce pp cp,
    growth_base aggregated_df !! S k = Some curr
    /\ padded_EPS aggregated_df !! k = Some pe
    /\ padded_EPS aggregated_df !! S k = Some ce
    /\ padded_SharePrice aggregated_df !! k = Some pp
    /\ padded_SharePrice aggregated_df !! S k = Some cp
    /\ F64.is_finite (pct pe ce) = true
    /\ F64.is_finite (pct pp cp) = true
    /\ g = growth_point curr (pct pe ce) (pct pp cp).
Proof.
  unfold growth. fold (growth_base aggregated_df).
  unfold padded_EPS, padded_SharePrice.
  set (df := growth_base aggregated_df).
  rewrite filter_In, in_map_iff. split.
  - intros [(g0 & <- & Hg0) Hkeep].
    apply list_elem_of_In, list_elem_of_lookup in Hg0 as [k Hk].
    rewrite add_growth_lookup in Hk.
    destruct (df !! k) as [curr |] eqn:Hcurr; [| discriminate].
    destruct k as [| k].
    { rewrite !growth_rate_lookup_0 in Hk.
      - injection Hk as <-. discriminate Hkeep.
      - intros Hnil. apply (f_equal (@List.length _)) in Hnil.
        rewrite length_map in Hnil. destruct df; [discriminate Hcurr | discriminate Hnil].
      - intros Hnil. apply (f_equal (@List.length _)) in Hnil.
        rewrite length_map in Hnil. destruct df; [discriminate Hcurr | discriminate Hnil]. }
    rewrite !growth_rate_lookup_S in Hk.
    destruct (pad (map agg_EPS df) !! k) as [pe |] eqn:Hpe; [| discriminate].
    destruct (pad (map agg_EPS df) !! S k) as [ce |] eqn:Hce; [| discriminate].
    destruct (pad (map agg_SharePrice df) !! k) as [pp |] eqn:Hpp; [| discriminate].
    destruct (pad (map agg_SharePrice df) !! S k) as [cp |] eqn:Hcp; [| discriminate].
    injection Hk as <-.
    fold (growth_point curr (pct pe ce) (pct pp cp)) in Hkeep |- *.
    rewrite has_growth_point in Hkeep. apply andb_true_iff in Hkeep as [He Hp].
    exists k, curr, pe, ce, pp, cp. repeat split; auto.
  - intros (k & curr & pe & ce & pp & cp & Hcurr & Hpe & Hce & Hpp & Hcp & He & Hp & ->).
    split.
    + exists (mkGrowthRow curr (pct pe ce) (pct pp cp)). split; [reflexivity |].
      apply list_elem_of_In, list_elem_of_lookup. exists (S k).
      rewrite add_growth_lookup, Hcurr, !growth_rate_lookup_S, Hpe, Hce, Hpp, Hcp.
      reflexivity.
    + rewrite has_growth_point, He, Hp. reflexivity.
Qed.

Lemma growth_length (aggregated_df : list AggRow) :
  (List.length (growth aggregated_df) <= List.length aggregated_df - 1)%nat.
Proof.
  unfold growth.
  assert (Hlen : List.length (add_growth (sort_values agg_Date aggregated_df))
                 = List.length aggregated_df).
  { rewrite length_add_growth. apply Permutation_length, sort_values_perm. }
  pose proof (add_growth_lookup (sort_values agg_Date aggregated_df) 0) as H0.
  destruct (add_growth (sort_values agg_Date aggregated_df)) as [| g0 rest] eqn:Hadd.
  - cbn. lia.
  - cbn [map List.filter]. cbn in Hlen.
    assert (Hdrop : has_growth (replace_inf_row g0) = false).
    { destruct (sort_values agg_Date aggregated_df) as [| a t] eqn:Hs; [discriminate H0 |].
      rewrite !growth_rate_lookup_0 in H0 by discriminate.
      cbn in H0. injection H0 as ->. reflexivity. }
    rewrite Hdrop.
    pose proof (filter_length_le has_growth (map replace_inf_row rest)) as Hle.
    rewrite length_map in Hle. lia.
Qed.

(** C5 (as amended).  [growth_df] has at most one row less than
    [aggregated_df].  Its rows are exactly the rows [curr] after the first
    for which both growth rates, computed on the padded columns as
    [(curr / prev - 1) * 100], are finite; such a row keeps the date and the
    period of [curr].  A padded value is the last value not null up to its
    row, so a null in the table is read as the value before it.  A growth
    rate is not finite when the padded base is null or zero or the padded
    current value is null. *)
Theorem growth_rows (aggregated_df : list AggRow) :
  (List.length (growth aggregated_df) <= List.length aggregated_df - 1)%nat
  /\ (forall g,
        In g (growth aggregated_df) <->
        exists k curr pe ce pp cp,
          growth_base aggregated_df !! S k = Some curr
          /\ padded_EPS aggregated_df !! k = Some pe
          /\ padded_EPS aggregated_df !! S k = Some ce
          /\ padded_SharePrice aggregated_df !! k = Some pp
          /\ padded_SharePrice aggregated_df !! S k = Some cp
          /\ F64.is_finite (pct pe ce) = true
          /\ F64.is_finite (pct pp cp) = true
          /\ g = growth_point curr (pct pe ce) (pct pp cp))
  /\ (forall curr e p,
        agg_Date (point (growth_point curr e p)) = agg_Date curr
        /\ Period (point (growth_point curr e p)) = Period curr
        /\ (F64.is_finite e = true -> EPS_Growth_Rate (growth_point curr e p) = e)
        /\ (F64.is_finite p = true -> Price_Growth_Rate (growth_point curr e p) = p))
  /\ (forall k,
        (k < List.length aggregated_df)%nat ->
        padded_EPS aggregated_df !! k
        = Some (last_valid (take (S k) (map agg_EPS (growth_base aggregated_df))))
        /\ padded_SharePrice aggregated_df !! k
           = Some (last_valid (take (S k) (map agg_SharePrice (growth_base aggregated_df)))))
  /\ (forall prev curr,
        F64.is_nan prev = true \/ F64.is_zero prev = true \/ F64.is_nan curr = true ->
        F64.is_finite (pct prev curr) = false).
Proof.
  split; [apply growth_length |].
  split; [apply growth_In |].
  split; [| split; [| apply pct_not_finite]].
  - intros curr e p. repeat split; try apply replace_inf_finite.
  - intros k Hk.
    assert (Hlen : List.length (growth_base aggregated_df) = List.length aggregated_df)
      by apply Permutation_length, sort_values_perm.
    unfold padded_EPS, padded_SharePrice.
    split; apply pad_lookup; rewrite length_map; lia.
Qed.


Lemma growth_rows_witness :
  In (growth_point
        {| Period := 2021; agg_EPS := F64.nan; agg_SharePrice := F64.of_Z 11;
           agg_Date := at_midnight 2021 12 31 |}
        (pct (F64.of_Z 1) (F64.of_Z 1)) (pct (F64.of_Z 10) (F64.of_Z 11)))
     (growth frame_gap_year).
Proof.
  apply (proj2 (proj1 (proj2 (growth_rows frame_gap_year)) _)).
  exists 0%nat,
    {| Period := 2021; agg_EPS := F64.nan; agg_SharePrice := F64.of_Z 11;
       agg_Date := at_midnight 2021 12 31 |},
    (F64.of_Z 1), (F64.of_Z 1), (F64.of_Z 10), (F64.of_Z 11).
  repeat split; reflexivity.
Defined.

(** C5 as stated fails: the row of 2021 has no EPS, and [growth_df] has a
    point for 2021 and a point for 2022. *)
Lemma null_operand_counterexample : ~ dropped_on_null_operand frame_gap_year.
Proof.
  intros H.
  destruct (H 0%nat
              {| Period := 2020; agg_EPS := F64.of_Z 1; agg_SharePrice := F64.of_Z 10;
                 agg_Date := at_midnight 2020 12 31 |}
              {| Period := 2021; agg_EPS := F64.nan; agg_SharePrice := F64.of_Z 11;
                 agg_Date := at_midnight 2021 12 31 |}
              (growth_point
                 {| Period := 2021; agg_EPS := F64.nan; agg_SharePrice := F64.of_Z 11;
                    agg_Date := at_midnight 2021 12 31 |}
                 (pct (F64.of_Z 1) (F64.of_Z 1)) (pct (F64.of_Z 10) (F64.of_Z 11))))
    as (_ & Hcurr & _).
  - reflexivity.
  - reflexivity.
  - vm_compute. left. reflexivity.
  - reflexivity.
  - discriminate Hcurr.
Qed.

(** * The store *)

Lemma keeps_refl (st : state) : keeps st st.
Proof. split; reflexivity. Qed.

Section Frames.
Variable st0 : state.

Lemma frames_ret {A} (a : A) (Q : A -> Prop) : Q a -> frames st0 (ret a) Q.
Proof. intros Hq st Hst. split; [exact Hst |]. cbn. now intros ? [= <-]. Qed.

Lemma frames_raise {A} (e : error) (Q : A -> Prop) : frames st0 (raise e) Q.
Proof. intros st Hst. split; [exact Hst |]. cbn. discriminate. Qed.

Lemma frames_lift {A} (r : error + A) (Q : A -> Prop) :
  (forall a, r = inr a -> Q a) -> frames st0 (lift r) Q.
Proof. intros Hq st Hst. split; [exact Hst |]. exact Hq. Qed.

Lemma frames_bind {A B} (m : M A) (k : A -> M B) (Q : A -> Prop) (R : B -> Prop) :
  frames st0 m Q -> (forall a, Q a -> frames st0 (k a) R) -> frames st0 (bind m k) R.
Proof.
  intros Hm Hk st Hst. unfold bind.
  destruct (Hm st Hst) as [Hkeep Hq].
  destruct (m st) as [[e | a] st']; cbn in *.
  - split; [exact Hkeep | discriminate].
  - apply Hk; auto.
Qed.

Lemma frames_weaken {A} (m : M A) (Q R : A -> Prop) :
  frames st0 m Q -> (forall a, Q a -> R a) -> frames st0 m R.
Proof.
  intros Hm Hqr st Hst. destruct (Hm st Hst) as [Hkeep Hq]. split; auto.
Qed.

(** An object made during the run is none of the objects of [st0]. *)
Lemma frames_alloc (o : object) :
  frames st0 (alloc o) (fun l => heap st0 !! l = None).
Proof.
  intros st [Hvar Hheap]. unfold alloc. cbn.
  assert (Hfresh : heap st !! fresh (dom (heap st)) = None).
  { apply not_elem_of_dom, is_fresh. }
  assert (Hold : heap st0 !! fresh (dom (heap st)) = None).
  { destruct (heap st0 !! fresh (dom (heap st))) as [o' |] eqn:Ho; [| reflexivity].
    eapply lookup_weaken in Ho; [| exact Hheap]. congruence. }
  split.
  - split; [exact Hvar |]. cbn.
    etransitivity; [exact Hheap |]. now apply insert_subseteq.
  - now intros l [= <-].
Qed.

Lemma frames_read (l : loc) : frames st0 (read l) (fun _ => True).
Proof.
  intros st Hst. unfold read. destruct (heap st !! l); cbn; auto.
Qed.

(** Writing to an object made during the run keeps the objects of [st0]. *)
Lemma frames_write (l : loc) (o : object) :
  heap st0 !! l = None -> frames st0 (write l o) (fun _ => True).
Proof.
  intros Hl st [Hvar Hheap]. unfold write. cbn. split; [| auto].
  split; [exact Hvar |]. cbn.
  apply map_subseteq_spec. intros i x Hi.
  destruct (decide (l = i)) as [-> | Hne]; [congruence |].
  rewrite lookup_insert_ne by exact Hne.
  eapply lookup_weaken; eauto.
Qed.

Lemma frames_lookup_company (name : string) :
  frames st0 (lookup_company name) (fun _ => True).
Proof.
  intros st Hst. unfold lookup_company.
  destruct (company_data_var st !! name); cbn; auto.
Qed.

Lemma frames_new_from (l : loc) (f : object -> error + object) :
  frames st0 (new_from l f) (fun l' => heap st0 !! l' = None).
Proof.
  unfold new_from.
  eapply frames_bind; [apply frames_read |]. intros o _.
  eapply frames_bind; [apply frames_lift with (Q := fun _ => True); auto |].
  intros o' _. apply frames_alloc.
Qed.

Lemma frames_setitem (l : loc) (f : object -> error + object) :
  heap st0 !! l = None -> frames st0 (setitem l f) (fun _ => True).
Proof.
  intros Hl. unfold setitem.
  eapply frames_bind; [apply frames_read |]. intros o _.
  eapply frames_bind; [apply frames_lift with (Q := fun _ => True); auto |].
  intros o' _. now apply frames_write.
Qed.

Lemma frames_read_as {A} (l : loc) (k : object -> M A) :
  (forall o, frames st0 (k o) (fun _ => True)) ->
  frames st0 (bind (read l) k) (fun _ => True).
Proof.
  intros Hk. eapply frames_bind; [apply frames_read |]. intros o _. apply Hk.
Qed.

Lemma frames_aggregate_frame (data_frequency : Frequency) (current_year : Z)
    (company_df : loc) :
  heap st0 !! company_df = None ->
  frames st0 (aggregate_frame data_frequency current_year company_df)
    (fun l => heap st0 !! l = None).
Proof.
  intros Hl. destruct data_frequency; cbn [aggregate_frame].
  - eapply frames_bind; [now apply frames_setitem |]. intros _ _.
    eapply frames_bind; [apply frames_new_from |]. intros sorted _.
    eapply frames_bind; [apply frames_new_from |]. intros agg Hagg.
    eapply frames_bind; [now apply frames_setitem |]. intros _ _.
    now apply frames_ret.
  - eapply frames_bind; [apply frames_new_from |]. intros c Hc.
    eapply frames_bind; [now apply frames_setitem |]. intros _ _.
    eapply frames_bind; [apply frames_new_from |]. intros sorted _.
    apply frames_new_from.
Qed.

Lemma frames_render (selected_company : option string) (data_frequency : Frequency)
    (select_slider : Z -> Z -> Z * Z) (current_year : Z) :
  frames st0 (render selected_company data_frequency select_slider current_year)
    (fun _ => True).
Proof.
  unfold render. destruct selected_company as [name |]; [| now apply frames_ret].
  eapply frames_bind; [apply frames_lookup_company |]. intros l0 _.
  eapply frames_bind.
  { unfold read_company. apply frames_read_as.
    intros [] ; (now apply frames_ret) || apply frames_raise. }
  intros rows _. destruct rows as [| r rows]; [now apply frames_ret |].
  destruct (date_min _) as [min_date |]; [| apply frames_raise].
  destruct (date_max _) as [max_date |]; [| apply frames_raise].
  destruct (select_slider _ _) as [start_year end_year].
  eapply frames_bind; [apply frames_new_from |]. intros c Hc.
  eapply frames_bind; [now apply frames_aggregate_frame |]. intros a1 Ha1.
  eapply frames_bind; [apply frames_new_from |]. intros a2 Ha2.
  eapply frames_bind.
  { unfold read_agg. apply frames_read_as.
    intros []; (now apply frames_ret) || apply frames_raise. }
  intros charted _.
  eapply frames_bind; [apply frames_new_from |]. intros a3 Ha3.
  eapply frames_bind; [now apply frames_setitem |]. intros _ _.
  eapply frames_bind; [now apply frames_setitem |]. intros _ _.
  eapply frames_bind; [apply frames_new_from |]. intros g1 Hg1.
  eapply frames_bind; [apply frames_new_from |]. intros g2 Hg2.
  eapply frames_bind.
  { unfold read_growth. apply frames_read_as.
    intros []; (now apply frames_ret) || apply frames_raise. }
  intros growth_rows _. now apply frames_ret.
Qed.

End Frames.

(** * What the script computes *)

Lemma returns_ret {A} (P : state -> Prop) (a : A) (Q : A -> state -> Prop) :
  (forall st, P st -> Q a st) -> returns P (ret a) Q.
Proof. intros H st Hst. exists a, st. split; [reflexivity | auto]. Qed.

Lemma returns_bind {A B} (P : state -> Prop) (m : M A) (k : A -> M B)
    (Q : A -> state -> Prop) (R : B -> state -> Prop) :
  returns P m Q -> (forall a, returns (Q a) (k a) R) -> returns P (bind m k) R.
Proof.
  intros Hm Hk st Hst. destruct (Hm st Hst) as (a & st' & Hrun & Hq).
  unfold bind. rewrite Hrun. now apply Hk.
Qed.

Lemma returns_new_from (l : loc) (f : object -> error + object) (o o' : object) :
  f o = inr o' -> returns (holds l o) (new_from l f) (fun l' => holds l' o').
Proof.
  intros Hf st Hst. unfold holds in Hst.
  unfold new_from, bind, read, lift, alloc. rewrite Hst, Hf.
  eexists _, _. split; [reflexivity |]. unfold holds. cbn. apply lookup_insert_eq.
Qed.

Lemma returns_setitem (l : loc) (f : object -> error + object) (o o' : object) :
  f o = inr o' -> returns (holds l o) (setitem l f) (fun _ => holds l o').
Proof.
  intros Hf st Hst. unfold holds in Hst.
  unfold setitem, bind, read, lift, write. rewrite Hst, Hf.
  eexists _, _. split; [reflexivity |]. unfold holds. cbn. apply lookup_insert_eq.
Qed.

Lemma returns_read_company (l : loc) (rows : list Row) :
  returns (holds l (OCompany rows)) (read_company l)
    (fun r st => r = rows /\ holds l (OCompany rows) st).
Proof.
  intros st Hst. unfold read_company, bind, read. rewrite Hst.
  exists rows, st. auto.
Qed.

Lemma returns_read_agg (l : loc) (rows : list AggRow) :
  returns (holds l (OAgg rows)) (read_agg l)
    (fun r st => r = rows /\ holds l (OAgg rows) st).
Proof.
  intros st Hst. unfold read_agg, bind, read. rewrite Hst.
  exists rows, st. auto.
Qed.

Lemma returns_read_growth (l : loc) (rows : list GrowthRow) :
  returns (holds l (OGrowth rows)) (read_growth l) (fun r _ => r = rows).
Proof.
  intros st Hst. unfold read_growth, bind, read. rewrite Hst.
  exists rows, st. auto.
Qed.

Lemma returns_pre {A} (P P' : state -> Prop) (m : M A) (Q : A -> state -> Prop) :
  (forall st, P st -> P' st) -> returns P' m Q -> returns P m Q.
Proof. intros Hp Hm st Hst. apply Hm, Hp, Hst. Qed.

(** For an equation that the value of the previous statement brings. *)
Lemma returns_given {A} (H : Prop) (P : state -> Prop) (m : M A)
    (Q : A -> state -> Prop) :
  (H -> returns P m Q) -> returns (fun st => H /\ P st) m Q.
Proof. intros Hm st [Hh Hst]. now apply Hm. Qed.

Lemma returns_aggregate_frame (data_frequency : Frequency) (current_year : Z)
    (company_df : loc) (filtered : list Row) :
  returns (holds company_df (OCompany filtered))
    (aggregate_frame data_frequency current_year company_df)
    (fun l => holds l (OAgg (aggregate_sorted_groups data_frequency current_year filtered))).
Proof.
  destruct data_frequency; cbn [aggregate_frame].
  - eapply returns_bind; [now apply returns_setitem |]. intros ?.
    eapply returns_bind; [now apply returns_new_from |]. intros sorted.
    eapply returns_bind; [now apply returns_new_from |]. intros agg.
    eapply returns_bind; [now apply returns_setitem |]. intros ?.
    now apply returns_ret.
  - eapply returns_bind; [now apply returns_new_from |]. intros c.
    eapply returns_bind; [now apply returns_setitem |]. intros ?.
    eapply returns_bind; [now apply returns_new_from |]. intros sorted.
    now apply returns_new_from.
Qed.

(** The script returns the aggregated frame and the growth frame of the
    pure pipeline, for the years the slider gives. *)
Lemma render_computes (name : string) (l : loc) (rows : list Row)
    (data_frequency : Frequency) (select_slider : Z -> Z -> Z * Z) (current_year : Z)
    (min_date max_date : Timestamp) :
  rows <> [] ->
  date_min (map Date rows) = Some min_date ->
  date_max (map Date rows) = Some max_date ->
  returns (fun st => company_data_var st !! name = Some l /\ holds l (OCompany rows) st)
    (render (Some name) data_frequency select_slider current_year)
    (fun r _ =>
       r = Some (let '(start_year, end_year) :=
                   select_slider (year min_date) (year max_date) in
                 let aggregated_df :=
                   aggregate data_frequency current_year start_year end_year rows in
                 (aggregated_df, growth aggregated_df))).
Proof.
  intros Hne Hmin Hmax. unfold render.
  eapply returns_bind with (Q := fun l' st => l' = l /\ holds l (OCompany rows) st).
  { intros st [Hvar Hst]. unfold lookup_company. rewrite Hvar. eauto. }
  intros l'. apply returns_given. intros ->.
  eapply returns_bind; [apply returns_read_company |].
  intros rows'. apply returns_given. intros ->.
  destruct rows as [| r rows]; [congruence |].
  rewrite Hmin, Hmax.
  destruct (select_slider (year min_date) (year max_date)) as [start_year end_year].
  eapply returns_bind; [now apply returns_new_from |]. intros c.
  eapply returns_bind; [apply returns_aggregate_frame |]. intros a1.
  eapply returns_bind; [now apply returns_new_from |]. intros a2.
  eapply returns_bind; [apply returns_read_agg |].
  intros charted. apply returns_given. intros ->.
  eapply returns_bind; [now apply returns_new_from |]. intros a3.
  eapply returns_bind; [now apply returns_setitem |]. intros ?.
  eapply returns_bind; [now apply returns_setitem |]. intros ?.
  eapply returns_bind; [now apply returns_new_from |]. intros g1.
  eapply returns_bind; [now apply returns_new_from |]. intros g2.
  eapply returns_bind; [apply returns_read_growth |].
  intros growth_rows. intros st ->. eexists _, _. split; reflexivity.
Qed.

(** The store the loader leaves: every name of [company_data] points to an
    object holding its frame. *)
Lemma store_blocks_company_data (blocks : list Block) :
  forall st (m : gmap string (list Row)),
    (forall name, match m !! name with
                  | Some df => exists l, company_data_var st !! name = Some l
                                         /\ heap st !! l = Some (OCompany df)
                  | None => company_data_var st !! name = None
                  end) ->
    forall name,
      match foldl (fun m b => <[block_name b := block_frame b]> m) m blocks !! name with
      | Some df =>
          exists l, company_data_var (snd (store_blocks blocks st)) !! name = Some l
                    /\ heap (snd (store_blocks blocks st)) !! l = Some (OCompany df)
      | None => company_data_var (snd (store_blocks blocks st)) !! name = None
      end.
Proof.
  induction blocks as [| b rest IH]; intros st m Hst name; cbn [foldl store_blocks].
  - apply Hst.
  - unfold bind, store_block, alloc. cbn.
    match goal with
    | |- context [store_blocks rest ?s] => apply (IH s (<[block_name b := block_frame b]> m))
    end.
    clear name. intros name. cbn.
    assert (Hfresh : heap st !! fresh (dom (heap st)) = None)
      by apply not_elem_of_dom, is_fresh.
    destruct (decide (block_name b = name)) as [<- | Hne].
    + rewrite !lookup_insert_eq. eexists. split; [reflexivity |].
      apply lookup_insert_eq.
    + rewrite !lookup_insert_ne by exact Hne. specialize (Hst name).
      destruct (m !! name) as [df |]; [| exact Hst].
      destruct Hst as (l & Hl & Hdf). exists l. split; [exact Hl |].
      rewrite lookup_insert_ne; [exact Hdf | congruence].
Qed.

Lemma load_company_data (blocks : list Block) (name : string) (df : list Row) :
  company_data blocks !! name = Some df ->
  exists l, company_data_var (snd (store_blocks blocks empty_state)) !! name = Some l
            /\ heap (snd (store_blocks blocks empty_state)) !! l = Some (OCompany df).
Proof.
  intros Hdf. unfold company_data in Hdf.
  pose proof (store_blocks_company_data blocks empty_state ∅) as H.
  specialize (H ltac:(intros n; rewrite lookup_empty; apply lookup_empty) name).
  now rewrite Hdf in H.
Qed.

(** C9.  Rendering a selection changes neither the dictionary nor any frame
    it holds: whatever the company, the frequency, the years left on the
    slider and the year of the clock, and however the run ends, every name
    still points to the same object and every object that existed before
    the run is as it was.  The filter, the period column and the growth
    columns go to objects made during the run. *)
Theorem render_keeps_company_data
    (selected_company : option string) (data_frequency : Frequency)
    (select_slider : Z -> Z -> Z * Z) (current_year : Z) (st : state) :
  let st' := snd (render selected_company data_frequency select_slider current_year st) in
  company_data_var st' = company_data_var st
  /\ heap st ⊆ heap st'
  /\ forall name l df,
      company_data_var st !! name = Some l -> heap st !! l = Some df ->
      company_data_var st' !! name = Some l /\ heap st' !! l = Some df.
Proof.
  cbv zeta.
  destruct (frames_render st selected_company data_frequency select_slider current_year
              st (keeps_refl st)) as [[Hvar Hheap] _].
  split; [exact Hvar |]. split; [exact Hheap |].
  intros name l df Hname Hl. rewrite Hvar. split; [exact Hname |].
  eapply lookup_weaken; eauto.
Qed.

Lemma render_keeps_company_data_witness :
  heap (snd (render (Some "X"%string) Quarterly (fun a b => (a, b)) 2026 state_X)) !! 1%positive
  = Some (OCompany series_X).
Proof.
  refine (proj2 (proj2 (proj2 (render_keeps_company_data
            (Some "X"%string) Quarterly (fun a b => (a, b)) 2026 state_X))
            "X"%string 1%positive (OCompany series_X) _ _)).
  - vm_compute. reflexivity.
  - vm_compute. reflexivity.
Defined.

(** * Further properties of the code *)

(** * More on the loader *)

Section LoaderMore.

Variable parse_datetime : list cell -> cell -> option Timestamp.
Variable parse_float : string -> option float.

Lemma rename3_select (df : RawGrid) (i : nat) :
  rename3 [i; i + 1; i + 2]%nat (select df [i; i + 1; i + 2]%nat) = Ok (block_rows df i).
Proof.
  unfold rename3, select, block_rows. cbn [List.length Nat.eqb].
  f_equal. rewrite map_map. reflexivity.
Qed.

Lemma scan_blocks (df : RawGrid) (fuel : nat) :
  forall i acc blocks,
    scan parse_datetime parse_float fuel df i acc = Some (Ok blocks) ->
    exists stored,
      blocks = acc ++ stored
      /\ List.Forall (fun b => exists j, (i <= j)%nat /\ block_at parse_datetime parse_float df j b) stored.
Proof.
  induction fuel as [| fuel IH]; intros i acc blocks; cbn [scan].
  - destruct (_ <=? _)%nat; [| discriminate]. intros [= <-].
    exists []. now rewrite app_nil_r.
  - destruct (Nat.leb_spec (num_columns df) i) as [Hge | Hlt].
    { intros [= <-]. exists []. now rewrite app_nil_r. }
    destruct (nth i (columns df) None) as [h |] eqn:Hh; cbn [is_blank].
    + destruct (PyStr.is_empty (PyStr.strip h)) eqn:Hblank.
      * intros Hscan. apply IH in Hscan as (stored & -> & Hall).
        exists stored. split; [reflexivity |].
        eapply List.Forall_impl; [| exact Hall].
        intros b (j & Hj & Hb). exists j. split; [lia | exact Hb].
      * destruct (Nat.leb_spec (i + 3) (num_columns df)) as [Hin | Hout].
        -- rewrite slice3_inside by lia. rewrite rename3_select.
           intros Hscan. apply IH in Hscan as (stored & -> & Hall).
           eexists (_ :: stored). rewrite <- app_assoc. split; [reflexivity |].
           constructor.
           ++ exists i. split; [lia |]. split; [exact Hin |].
              exists h. cbn. auto.
           ++ eapply List.Forall_impl; [| exact Hall].
              intros b (j & Hj & Hb). exists j. split; [lia | exact Hb].
        -- unfold rename3. rewrite slice3_short by lia. discriminate.
    + intros Hscan. apply IH in Hscan as (stored & -> & Hall).
      exists stored. split; [reflexivity |].
      eapply List.Forall_impl; [| exact Hall].
      intros b (j & Hj & Hb). exists j. split; [lia | exact Hb].
Qed.


(** The frame stored for a company is the normalisation of the three columns
    that start at its name. *)
Lemma split_blocks_frames (df : RawGrid) (blocks : list Block) :
  split_blocks parse_datetime parse_float df = Some (Ok blocks) ->
  List.Forall (fun b => exists i, block_at parse_datetime parse_float df i b) blocks.
Proof.
  intros Hscan. apply scan_blocks in Hscan as (stored & -> & Hall). cbn [app].
  eapply List.Forall_impl; [| exact Hall]. intros b (j & _ & Hb). eauto.
Qed.

End LoaderMore.

(** * [str.strip] *)

Lemma lstrip_head (s : string) :
  PyStr.lstrip s = EmptyString
  \/ exists c t, PyStr.lstrip s = String c t /\ PyStr.is_space c = false.
Proof.
  induction s as [| c t IH]; cbn; [now left |].
  destruct (PyStr.is_space c) eqn:Hc; [exact IH |]. right. eauto.
Qed.

Lemma rstrip_head (c : ascii) (t : string) :
  PyStr.is_space c = false -> exists t', PyStr.rstrip (String c t) = String c t'.
Proof.
  intros Hc. cbn. rewrite Hc. destruct (PyStr.rstrip t); eauto.
Qed.

Lemma rstrip_idem (s : string) : PyStr.rstrip (PyStr.rstrip s) = PyStr.rstrip s.
Proof.
  induction s as [| c t IH]; [reflexivity |]. cbn [PyStr.rstrip].
  destruct (PyStr.rstrip t) as [| c' r] eqn:Hr.
  - destruct (PyStr.is_space c) eqn:Hc; [reflexivity |]. cbn. now rewrite Hc.
  - cbn [PyStr.rstrip] in IH |- *. rewrite IH. reflexivity.
Qed.

Lemma strip_idem (s : string) : PyStr.strip (PyStr.strip s) = PyStr.strip s.
Proof.
  unfold PyStr.strip. destruct (lstrip_head s) as [-> | (c & t & -> & Hc)]; [reflexivity |].
  destruct (rstrip_head c t Hc) as [t' Ht]. rewrite Ht.
  replace (PyStr.lstrip (String c t')) with (String c t') by (cbn; now rewrite Hc).
  rewrite <- Ht. apply rstrip_idem.
Qed.

(** * The dictionary [company_data] *)

Lemma company_data_snoc (blocks : list Block) (b : Block) :
  company_data (blocks ++ [b]) = <[block_name b := block_frame b]> (company_data blocks).
Proof. unfold company_data. rewrite foldl_app. reflexivity. Qed.

Lemma blocks_named_snoc (name : string) (blocks : list Block) (b : Block) :
  blocks_named name (blocks ++ [b])
  = blocks_named name blocks ++ (if bool_decide (block_name b = name) then [b] else []).
Proof. unfold blocks_named. rewrite List.filter_app. reflexivity. Qed.

Lemma company_data_lookup (blocks : list Block) (name : string) :
  company_data blocks !! name = block_frame <$> last (blocks_named name blocks).
Proof.
  induction blocks as [| b blocks IH] using rev_ind; [reflexivity |].
  rewrite company_data_snoc, blocks_named_snoc.
  destruct (bool_decide_reflect (block_name b = name)) as [<- | Hne].
  - rewrite lookup_insert_eq, last_snoc. reflexivity.
  - rewrite lookup_insert_ne by exact Hne. rewrite app_nil_r. exact IH.
Qed.

Lemma last_In {A} (l : list A) (x : A) : last l = Some x -> In x l.
Proof.
  intros H. apply last_Some in H as [l' ->]. apply in_or_app. right. now left.
Qed.

(** X1.  When the loader returns, each block it stored starts at a header
    that is not blank, has its three columns inside the grid, is named by
    the trimmed header, and holds the normalisation of those three columns
    of the grid. *)
Theorem stored_block_is_its_three_columns
    (parse_datetime : list cell -> cell -> option Timestamp)
    (parse_float : string -> option float) (df : RawGrid) (blocks : list Block) :
  split_blocks parse_datetime parse_float df = Some (Ok blocks) ->
  forall b, In b blocks ->
    exists i h,
      (i + 3 <= num_columns df)%nat
      /\ nth i (columns df) None = Some h
      /\ is_blank (Some h) = false
      /\ block_name b = PyStr.strip h
      /\ block_cols b = [i; i + 1; i + 2]%nat
      /\ block_frame b = normalize parse_datetime parse_float (block_rows df i).
Proof.
  intros Hscan b Hb. apply split_blocks_frames in Hscan.
  rewrite List.Forall_forall in Hscan.
  destruct (Hscan b Hb) as (i & Hfit & h & Hh & Hblank & Hname & Hcols & Hframe).
  exists i, h. repeat split; assumption.
Qed.

Lemma stored_block_is_its_three_columns_witness :
  exists i h,
    (i + 3 <= num_columns grid_AB)%nat
    /\ nth i (columns grid_AB) None = Some h
    /\ is_blank (Some h) = false
    /\ "B"%string = PyStr.strip h
    /\ [4; 5; 6]%nat = [i; i + 1; i + 2]%nat
    /\ [obs (at_midnight 2021 3 15) (F64.of_Z 5) (F64.of_Z 50)]
       = normalize sample_parse_datetime sample_parse_float (block_rows grid_AB i).
Proof.
  refine (stored_block_is_its_three_columns sample_parse_datetime sample_parse_float
            grid_AB _ eq_refl
            (mkBlock "B" [4; 5; 6]%nat
               [obs (at_midnight 2021 3 15) (F64.of_Z 5) (F64.of_Z 50)]) _).
  vm_compute. right. left. reflexivity.
Defined.

(** X2.  The dictionary holds, under a name, the frame of the last block
    stored under that name, and nothing under a name no block has. *)
Theorem company_data_last_block_wins (blocks : list Block) (name : string) :
  company_data blocks !! name = block_frame <$> last (blocks_named name blocks).
Proof. apply company_data_lookup. Qed.

(** X3.  The names in the dictionary are trimmed and not empty. *)
Theorem company_names_are_trimmed
    (parse_datetime : list cell -> cell -> option Timestamp)
    (parse_float : string -> option float) (df : RawGrid) (blocks : list Block)
    (name : string) :
  split_blocks parse_datetime parse_float df = Some (Ok blocks) ->
  is_Some (company_data blocks !! name) ->
  name <> EmptyString /\ PyStr.strip name = name.
Proof.
  intros Hscan [frame Hname]. rewrite company_data_lookup in Hname.
  destruct (last (blocks_named name blocks)) as [b |] eqn:Hlast; [| discriminate].
  apply last_In, filter_In in Hlast as [Hb Hbn].
  apply bool_decide_eq_true in Hbn. subst name.
  apply split_blocks_frames in Hscan. rewrite List.Forall_forall in Hscan.
  destruct (Hscan b Hb) as (i & _ & h & _ & Hblank & -> & _). split.
  - intros Hempty. rewrite Hempty in Hblank. discriminate.
  - apply strip_idem.
Qed.

Lemma company_names_are_trimmed_witness :
  "B"%string <> EmptyString /\ PyStr.strip "B" = "B"%string.
Proof.
  refine (company_names_are_trimmed sample_parse_datetime sample_parse_float
            grid_AB _ "B" eq_refl _).
  vm_compute. eexists. reflexivity.
Defined.

(** X4.  The loader follows the scan of the header.  On every grid where
    each company name has its three columns, it stores exactly the blocks of
    the scan: a label of white space only moves the scan by one column, any
    other label starts the block of columns [i, i+1, i+2] under the trimmed
    label and moves it by four; no two blocks of the scan share a column.
    The header line [A,,,,B,,,] gives A on 0,1,2 and B on 4,5,6; a first
    cell of one space and a name with spaces around it give A on 1,2,3; on
    the sample grid the frames are those of the blocks' columns. *)
Theorem loader_follows_the_scan
    (parse_datetime : list cell -> cell -> option Timestamp)
    (parse_float : string -> option float) :
  (forall df,
      blocks_fit (num_columns df) (spec_blocks (columns df)) = true ->
      block_ranges (split_blocks parse_datetime parse_float df)
      = Some (Ok (spec_blocks (columns df))))
  /\ (forall headers, no_overlap (spec_blocks headers))
  /\ (forall rows,
        block_ranges (split_blocks parse_datetime parse_float
                        (mkRawGrid (header_labels cells_AB) rows))
        = Some (Ok [("A"%string, [0; 1; 2]%nat); ("B"%string, [4; 5; 6]%nat)]))
  /\ (forall rows,
        block_ranges (split_blocks parse_datetime parse_float
                        (mkRawGrid (header_labels cells_space_A_B) rows))
        = Some (Ok [("A"%string, [1; 2; 3]%nat); ("B"%string, [5; 6; 7]%nat)]))
  /\ split_blocks sample_parse_datetime sample_parse_float grid_AB
     = Some (Ok [mkBlock "A" [0; 1; 2]%nat
                   [obs (at_midnight 2021 3 15) (F64.of_Z 1) (F64.of_Z 10);
                    obs (at_midnight 2021 6 15) (F64.of_Z 2) (F64.of_Z 12)];
                 mkBlock "B" [4; 5; 6]%nat
                   [obs (at_midnight 2021 3 15) (F64.of_Z 5) (F64.of_Z 50)]]).
Proof.
  split; [| split; [| split; [| split]]].
  - intros df Hfit. rewrite split_blocks_total, Hfit. reflexivity.
  - apply spec_blocks_no_overlap.
  - intros rows. rewrite split_blocks_total. reflexivity.
  - intros rows. rewrite split_blocks_total. reflexivity.
  - vm_compute. reflexivity.
Qed.

Lemma loader_follows_the_scan_witness :
  block_ranges (split_blocks sample_parse_datetime sample_parse_float grid_AB)
  = Some (Ok [("A"%string, [0; 1; 2]%nat); ("B"%string, [4; 5; 6]%nat)]).
Proof.
  exact (proj1 (loader_follows_the_scan sample_parse_datetime sample_parse_float)
           grid_AB eq_refl).
Defined.

(** * Quarters and their end *)

Lemma quarter_parts (q : Z) :
  exists y r, q = 4 * y + r /\ 0 <= r < 4 /\ q / 4 = y /\ q mod 4 = r.
Proof.
  exists (q / 4), (q mod 4). pose proof (Z.div_mod q 4 ltac:(lia)).
  pose proof (Z.mod_pos_bound q 4 ltac:(lia)). lia.
Qed.

Lemma to_period_end_time (q : Z) : to_period_Q (end_time q) = q.
Proof.
  unfold to_period_Q, end_time, period_year, period_quarter. cbn [year month].
  destruct (quarter_parts q) as (y & r & Hq & Hr & -> & ->).
  replace ((3 * (r + 1) - 1) / 3) with r
    by (apply Z.div_unique with (r := 2); lia).
  lia.
Qed.

Lemma end_time_calendar (q : Z) : calendar_date (end_time q).
Proof.
  unfold calendar_date, end_time, period_quarter, days_in_month. cbn [year month day nanos].
  destruct (quarter_parts q) as (y & r & Hq & Hr & _ & ->).
  assert (Hcases : r = 0 \/ r = 1 \/ r = 2 \/ r = 3) by lia.
  destruct Hcases as [-> | [-> | [-> | ->]]]; repeat split; vm_compute;
    (reflexivity || (intros H; discriminate H)).
Qed.

Lemma end_time_lt (q1 q2 : Z) : q1 < q2 -> ts_lt (end_time q1) (end_time q2).
Proof.
  intros Hlt. unfold ts_lt, ts_compare, end_time, period_year, period_quarter.
  cbn [year month day nanos].
  destruct (quarter_parts q1) as (y1 & r1 & Hq1 & Hr1 & -> & ->).
  destruct (quarter_parts q2) as (y2 & r2 & Hq2 & Hr2 & -> & ->).
  destruct (Z.compare_spec (1970 + y1) (1970 + y2)); [| reflexivity | lia].
  destruct (Z.compare_spec (3 * (r1 + 1)) (3 * (r2 + 1))); [lia | reflexivity | lia].
Qed.

Lemma days_in_quarter_end (k : Z) :
  0 <= k < 4 ->
  days_in_month (3 * (k + 1))
  = if (3 * (k + 1) =? 6) || (3 * (k + 1) =? 9) then 30 else 31.
Proof.
  intros Hk. assert (Hcases : k = 0 \/ k = 1 \/ k = 2 \/ k = 3) by lia.
  destruct Hcases as [-> | [-> | [-> | ->]]]; reflexivity.
Qed.

Lemma end_time_after (t : Timestamp) :
  calendar_date t -> ts_leb t (end_time (to_period_Q t)) = true.
Proof.
  intros (Hm & Hd & Hn). rewrite end_time_of_date by exact Hm.
  unfold ts_leb, ts_compare. cbn [year month day nanos].
  assert (Hq : 0 <= (month t - 1) / 3 < 4).
  { split; [apply Z.div_pos; lia | apply Z.div_lt_upper_bound; lia]. }
  pose proof (Z.div_mod (month t - 1) 3 ltac:(lia)) as Hdm.
  pose proof (Z.mod_pos_bound (month t - 1) 3 ltac:(lia)) as Hmod.
  set (k := (month t - 1) / 3) in *.
  rewrite Z.compare_refl.
  destruct (Z.compare_spec (month t) (3 * (k + 1))) as [Heq | Hlt | Hgt];
    [| reflexivity | lia].
  rewrite Heq, days_in_quarter_end in Hd by exact Hq.
  destruct (Z.compare_spec (day t)
              (if (3 * (k + 1) =? 6) || (3 * (k + 1) =? 9) then 30 else 31));
    [| reflexivity | lia].
  destruct (Z.compare_spec (nanos t) (nanos_per_day - 1)); try reflexivity; lia.
Qed.

Lemma year_lt_ts_lt (a b : Timestamp) : year a < year b -> ts_lt a b.
Proof.
  intros H. unfold ts_lt, ts_compare.
  destruct (Z.compare_spec (year a) (year b)); [lia | reflexivity | lia].
Qed.

Lemma ts_lt_leb (a b : Timestamp) : ts_lt a b -> ts_leb a b = true.
Proof. unfold ts_lt, ts_leb. now intros ->. Qed.

Lemma ts_leb_year (a b : Timestamp) : ts_leb a b = true -> year a <= year b.
Proof.
  unfold ts_leb, ts_compare.
  destruct (Z.compare_spec (year a) (year b)); intros Hle; [lia | lia | discriminate Hle].
Qed.

Lemma ts_leb_refl (a : Timestamp) : ts_leb a a = true.
Proof. destruct (ts_leb_total a a); assumption. Qed.

(** X5.  The end of a quarter is a calendar date that lies in that quarter,
    and no calendar date of a quarter is later than the quarter's end. *)
Theorem quarter_end_round_trip :
  (forall q, to_period_Q (end_time q) = q /\ calendar_date (end_time q))
  /\ (forall t, calendar_date t -> ts_leb t (end_time (to_period_Q t)) = true).
Proof.
  split.
  - intros q. split; [apply to_period_end_time | apply end_time_calendar].
  - apply end_time_after.
Qed.

Lemma quarter_end_round_trip_witness :
  ts_leb (mkTimestamp 2024 2 29 5) (end_time (to_period_Q (mkTimestamp 2024 2 29 5))) = true.
Proof.
  apply (proj2 quarter_end_round_trip).
  unfold calendar_date, nanos_per_day. cbn. lia.
Defined.

(** * Order of the aggregated frame *)

Lemma sort_values_sorted_id {A} (date : A -> option Timestamp) (l : list A) :
  StronglySorted (by_date date) l -> sort_values date l = l.
Proof.
  induction 1 as [| x t Hs IH Hall]; [reflexivity |].
  cbn [sort_values]. rewrite IH. destruct t as [| y t']; [reflexivity |].
  cbn [insert_by]. inversion Hall as [| ? ? Hxy _]; subst.
  unfold by_date, date_le in Hxy. rewrite Hxy. reflexivity.
Qed.

Lemma strongly_sorted_map {A B} (R : A -> A -> Prop) (S : B -> B -> Prop)
    (f : A -> B) (l : list A) :
  (forall a b, R a b -> S (f a) (f b)) ->
  StronglySorted R l -> StronglySorted S (map f l).
Proof.
  intros Hf. induction 1 as [| x t Hs IH Hall]; cbn; constructor; [exact IH |].
  apply List.Forall_forall. intros y Hy. apply in_map_iff in Hy as (a & <- & Ha).
  rewrite List.Forall_forall in Hall. auto.
Qed.

Lemma strongly_sorted_In {A} (R S : A -> A -> Prop) (l : list A) :
  (forall a b, In a l -> In b l -> R a b -> S a b) ->
  StronglySorted R l -> StronglySorted S l.
Proof.
  intros Himp Hs. induction Hs as [| x t Hs IH Hall]; constructor.
  - apply IH. intros a b Ha Hb. apply Himp; now right.
  - apply List.Forall_forall. intros y Hy.
    rewrite List.Forall_forall in Hall. apply Himp; [now left | now right | auto].
Qed.

Section AggregatedOrder.

Variables (data_frequency : Frequency) (current_year start_year end_year : Z).
Variable company_df : list Row.

Lemma aggregate_annual_date (a : AggRow) :
  data_frequency = Annual ->
  In a (aggregate data_frequency current_year start_year end_year company_df) ->
  exists t, agg_Date a = Some t /\ year t = Period a.
Proof.
  intros -> Ha. apply aggregate_In in Ha as [Hne Ha].
  destruct (nonempty_last _ Hne) as (g & r & Hg).
  assert (Hr : In r (period_group Annual current_year start_year end_year
                       company_df (Period a))).
  { rewrite Hg. apply in_or_app. right. now left. }
  apply period_group_dated in Hr as (t & Ht & _ & Hk).
  exists t. split; [| exact Hk].
  rewrite Ha. cbn [agg_Date representative_date]. rewrite Hg.
  erewrite group_last_date by exact Hg. exact Ht.
Qed.

Lemma aggregate_date (a : AggRow) :
  In a (aggregate data_frequency current_year start_year end_year company_df) ->
  exists t, agg_Date a = Some t /\ period_of data_frequency t = Period a.
Proof.
  intros Ha. destruct data_frequency eqn:Hf.
  - apply aggregate_In in Ha as [_ Ha]. exists (end_time (Period a)).
    split; [rewrite Ha; reflexivity | apply to_period_end_time].
  - rewrite <- Hf in Ha. now apply aggregate_annual_date in Ha.
Qed.

Lemma groups_sorted_by_period :
  StronglySorted (fun a b => Period a < Period b)
    (aggregate_sorted_groups data_frequency current_year
       (filter_years start_year end_year company_df)).
Proof.
  unfold aggregate_sorted_groups, groupby_last.
  match goal with
  | |- context [map ?f (group_keys ?ks)] =>
      assert (Hs : StronglySorted (fun a b => Period a < Period b) (map f (group_keys ks)))
  end.
  { eapply strongly_sorted_map; [| apply group_keys_sorted]. intros a b Hab. exact Hab. }
  destruct data_frequency; [| exact Hs].
  unfold set_quarter_end. eapply strongly_sorted_map; [| exact Hs].
  intros a b Hab. exact Hab.
Qed.

Lemma groups_sorted_strictly :
  StronglySorted
    (fun a b => Period a < Period b
                /\ exists ta tb, agg_Date a = Some ta /\ agg_Date b = Some tb /\ ts_lt ta tb)
    (aggregate_sorted_groups data_frequency current_year
       (filter_years start_year end_year company_df)).
Proof.
  eapply strongly_sorted_In; [| apply groups_sorted_by_period].
  intros a b Ha Hb Hab. split; [exact Hab |].
  assert (Hin : forall x,
             In x (aggregate_sorted_groups data_frequency current_year
                     (filter_years start_year end_year company_df)) ->
             In x (aggregate data_frequency current_year start_year end_year company_df)).
  { intros x Hx. unfold aggregate. now apply sort_values_In. }
  apply Hin in Ha, Hb.
  destruct data_frequency eqn:Hf.
  - apply aggregate_In in Ha as [_ Ha]. apply aggregate_In in Hb as [_ Hb].
    exists (end_time (Period a)), (end_time (Period b)).
    split; [rewrite Ha; reflexivity |]. split; [rewrite Hb; reflexivity |].
    now apply end_time_lt.
  - rewrite <- Hf in Ha, Hb.
    apply aggregate_annual_date in Ha as (ta & Hta & Hya); [| exact Hf].
    apply aggregate_annual_date in Hb as (tb & Htb & Hyb); [| exact Hf].
    exists ta, tb. repeat split; auto. apply year_lt_ts_lt. cbv beta in Hab. lia.
Qed.

Lemma strictly_sorted_by_date (l : list AggRow) :
  StronglySorted
    (fun a b => Period a < Period b
                /\ exists ta tb, agg_Date a = Some ta /\ agg_Date b = Some tb /\ ts_lt ta tb) l ->
  StronglySorted (by_date agg_Date) l.
Proof.
  apply strongly_sorted_In. intros a b _ _ (_ & ta & tb & Ha & Hb & Hlt).
  unfold by_date, date_le. rewrite Ha, Hb. cbn. now apply ts_lt_leb.
Qed.

Lemma aggregate_is_sorted_groups :
  aggregate data_frequency current_year start_year end_year company_df
  = aggregate_sorted_groups data_frequency current_year
      (filter_years start_year end_year company_df).
Proof.
  unfold aggregate. apply sort_values_sorted_id, strictly_sorted_by_date,
    groups_sorted_strictly.
Qed.

End AggregatedOrder.

(** X6.  The date of an aggregated row is never null and lies in the period
    of the row: its year is the row's year under Annual, its quarter is the
    row's quarter under Quarterly. *)
Theorem aggregated_date_lies_in_period
    (data_frequency : Frequency) (current_year start_year end_year : Z)
    (company_df : list Row) (a : AggRow) :
  In a (aggregate data_frequency current_year start_year end_year company_df) ->
  exists t, agg_Date a = Some t /\ period_of data_frequency t = Period a.
Proof. apply aggregate_date. Qed.

Lemma aggregated_date_lies_in_period_witness :
  exists t, Some (end_time 212) = Some t /\ period_of Quarterly t = 212.
Proof.
  refine (aggregated_date_lies_in_period Quarterly 2026 2023 2023 series_gap
            {| Period := 212; agg_EPS := F64.of_Z 1; agg_SharePrice := F64.of_Z 12;
               agg_Date := Some (end_time 212) |} _).
  vm_compute. left. reflexivity.
Defined.

(** X7.  The aggregated frame has one row per period, in ascending order of
    period and of date, both strictly; the sorts of lines 121 and 193 find
    it sorted and change nothing. *)
Theorem aggregated_frame_is_ordered
    (data_frequency : Frequency) (current_year start_year end_year : Z)
    (company_df : list Row) :
  let aggregated_df :=
    aggregate data_frequency current_year start_year end_year company_df in
  StronglySorted
    (fun a b => Period a < Period b
                /\ exists ta tb, agg_Date a = Some ta /\ agg_Date b = Some tb /\ ts_lt ta tb)
    aggregated_df
  /\ aggregated_df
     = aggregate_sorted_groups data_frequency current_year
         (filter_years start_year end_year company_df)
  /\ growth_base aggregated_df = aggregated_df.
Proof.
  cbv zeta. rewrite aggregate_is_sorted_groups.
  split; [apply groups_sorted_strictly |]. split; [reflexivity |].
  unfold growth_base. apply sort_values_sorted_id, strictly_sorted_by_date,
    groups_sorted_strictly.
Qed.

(** * The date range of a frame *)

Lemma date_min_snoc (ds : list (option Timestamp)) (d : option Timestamp) :
  date_min (ds ++ [d])
  = match date_min ds, d with
    | Some a, Some x => Some (if ts_leb a x then a else x)
    | None, _ => d
    | acc, None => acc
    end.
Proof.
  unfold date_min. rewrite foldl_app. cbn [foldl].
  destruct (foldl _ None ds); destruct d; reflexivity.
Qed.

Lemma date_max_snoc (ds : list (option Timestamp)) (d : option Timestamp) :
  date_max (ds ++ [d])
  = match date_max ds, d with
    | Some a, Some x => Some (if ts_leb a x then x else a)
    | None, _ => d
    | acc, None => acc
    end.
Proof.
  unfold date_max. rewrite foldl_app. cbn [foldl].
  destruct (foldl _ None ds); destruct d; reflexivity.
Qed.

Lemma ts_leb_false (a b : Timestamp) : ts_leb a b = false -> ts_leb b a = true.
Proof. intros H. destruct (ts_leb_total a b); congruence. Qed.

Lemma date_min_spec (ds : list (option Timestamp)) :
  match date_min ds with
  | None => forall d, In d ds -> d = None
  | Some m => In (Some m) ds /\ forall t, In (Some t) ds -> ts_leb m t = true
  end.
Proof.
  induction ds as [| d ds IH] using rev_ind; [intros d [] |].
  rewrite date_min_snoc. destruct (date_min ds) as [a |].
  - destruct IH as [Hin Hmin]. destruct d as [x |].
    + destruct (ts_leb a x) eqn:Hax.
      * split; [apply in_or_app; now left |].
        intros t Ht. apply in_app_or in Ht as [Ht | [[= <-] | []]]; auto.
      * split; [apply in_or_app; right; now left |].
        intros t Ht. apply in_app_or in Ht as [Ht | [[= <-] | []]].
        -- eapply ts_leb_trans; [apply ts_leb_false, Hax | now apply Hmin].
        -- apply ts_leb_refl.
    + split; [apply in_or_app; now left |].
      intros t Ht. apply in_app_or in Ht as [Ht | [[=] | []]]. auto.
  - destruct d as [x |].
    + split; [apply in_or_app; right; now left |].
      intros t Ht. apply in_app_or in Ht as [Ht | [[= <-] | []]].
      * apply IH in Ht. discriminate.
      * apply ts_leb_refl.
    + intros d Hd. apply in_app_or in Hd as [Hd | [<- | []]]; auto.
Qed.

Lemma date_max_spec (ds : list (option Timestamp)) :
  match date_max ds with
  | None => forall d, In d ds -> d = None
  | Some m => In (Some m) ds /\ forall t, In (Some t) ds -> ts_leb t m = true
  end.
Proof.
  induction ds as [| d ds IH] using rev_ind; [intros d [] |].
  rewrite date_max_snoc. destruct (date_max ds) as [a |].
  - destruct IH as [Hin Hmax]. destruct d as [x |].
    + destruct (ts_leb a x) eqn:Hax.
      * split; [apply in_or_app; right; now left |].
        intros t Ht. apply in_app_or in Ht as [Ht | [[= <-] | []]].
        -- eapply ts_leb_trans; [now apply Hmax | exact Hax].
        -- apply ts_leb_refl.
      * split; [apply in_or_app; now left |].
        intros t Ht. apply in_app_or in Ht as [Ht | [[= <-] | []]]; auto.
        now apply ts_leb_false.
    + split; [apply in_or_app; now left |].
      intros t Ht. apply in_app_or in Ht as [Ht | [[=] | []]]. auto.
  - destruct d as [x |].
    + split; [apply in_or_app; right; now left |].
      intros t Ht. apply in_app_or in Ht as [Ht | [[= <-] | []]].
      * apply IH in Ht. discriminate.
      * apply ts_leb_refl.
    + intros d Hd. apply in_app_or in Hd as [Hd | [<- | []]]; auto.
Qed.

Lemma date_range_bounds (rows : list Row) (min_date max_date : Timestamp) :
  date_min (map Date rows) = Some min_date ->
  date_max (map Date rows) = Some max_date ->
  forall r t, In r rows -> Date r = Some t ->
              year min_date <= year t <= year max_date.
Proof.
  intros Hmin Hmax r t Hr Ht.
  pose proof (date_min_spec (map Date rows)) as Hlo. rewrite Hmin in Hlo.
  pose proof (date_max_spec (map Date rows)) as Hhi. rewrite Hmax in Hhi.
  assert (Hin : In (Some t) (map Date rows)).
  { apply in_map_iff. exists r. auto. }
  split; apply ts_leb_year; [now apply Hlo | now apply Hhi].
Qed.

(** X9.  For a frame with a dated row the first and the last date exist and
    bound the year of every dated row, so the first year is at most the last
    and the slider has an option to show. *)
Theorem slider_years_bound_the_dates (rows : list Row) :
  (exists r, In r rows /\ has_date r = true) ->
  exists min_date max_date,
    date_min (map Date rows) = Some min_date
    /\ date_max (map Date rows) = Some max_date
    /\ year min_date <= year max_date
    /\ forall r t, In r rows -> Date r = Some t ->
                   year min_date <= year t <= year max_date.
Proof.
  intros (r & Hr & Hdated). unfold has_date in Hdated.
  destruct (Date r) as [t |] eqn:Ht; [| discriminate].
  assert (Hin : In (Some t) (map Date rows)).
  { apply in_map_iff. exists r. auto. }
  pose proof (date_min_spec (map Date rows)) as Hlo.
  pose proof (date_max_spec (map Date rows)) as Hhi.
  destruct (date_min (map Date rows)) as [mn |] eqn:Hmin;
    [| apply Hlo in Hin; discriminate].
  destruct (date_max (map Date rows)) as [mx |] eqn:Hmax;
    [| apply Hhi in Hin; discriminate].
  exists mn, mx.
  split; [reflexivity |]. split; [reflexivity |]. split.
  - pose proof (date_range_bounds rows mn mx Hmin Hmax r t Hr Ht). lia.
  - now apply date_range_bounds.
Qed.

Lemma slider_years_bound_the_dates_witness :
  exists min_date max_date,
    date_min (map Date series_gap_year) = Some min_date
    /\ date_max (map Date series_gap_year) = Some max_date
    /\ year min_date <= year max_date
    /\ forall r t, In r series_gap_year -> Date r = Some t ->
                   year min_date <= year t <= year max_date.
Proof.
  apply slider_years_bound_the_dates.
  exists (obs (at_midnight 2020 12 31) (F64.of_Z 1) (F64.of_Z 10)).
  split; [left; reflexivity | reflexivity].
Defined.

(** X10.  With the slider as the page first shows it, from the first to the
    last year of the frame, the year filter of line 86 removes the rows
    without a date and nothing else. *)
Theorem default_range_keeps_dated_rows (rows : list Row) (min_date max_date : Timestamp) :
  date_min (map Date rows) = Some min_date ->
  date_max (map Date rows) = Some max_date ->
  let '(start_year, end_year) := default_slider (year min_date) (year max_date) in
  filter_years start_year end_year rows = List.filter has_date rows.
Proof.
  intros Hmin Hmax. cbn. unfold filter_years. apply List.filter_ext_in.
  intros r Hr. unfold has_date. destruct (Date r) as [t |] eqn:Ht.
  - apply in_year_range_spec. exists t. split; [exact Ht |].
    eapply date_range_bounds; eauto.
  - unfold in_year_range, dt_year. rewrite Ht. reflexivity.
Qed.

Lemma default_range_keeps_dated_rows_witness :
  filter_years 2023 2023 series_gap = List.filter has_date series_gap.
Proof.
  exact (default_range_keeps_dated_rows series_gap
           (mkTimestamp 2023 1 1 0) (mkTimestamp 2023 3 30 0) eq_refl eq_refl).
Defined.

(** X11.  Annual aggregation is aggregation over the range cut at the year
    before the current one. *)
Theorem annual_range_ends_last_year
    (current_year start_year end_year : Z) (company_df : list Row) :
  aggregate Annual current_year start_year end_year company_df
  = aggregate Annual current_year start_year (Z.min end_year (current_year - 1)) company_df
  /\ filter_before current_year (filter_years start_year end_year company_df)
     = filter_years start_year (Z.min end_year (current_year - 1)) company_df.
Proof.
  assert (Hcut : forall e,
             e = end_year \/ e = Z.min end_year (current_year - 1) ->
             filter_before current_year (filter_years start_year e company_df)
             = filter_years start_year (Z.min end_year (current_year - 1)) company_df).
  { intros e He. unfold filter_before, filter_years.
    induction company_df as [| r l IH]; [reflexivity |]. cbn [List.filter].
    assert (Hr : in_year_range start_year e r && before_year current_year r
                 = in_year_range start_year (Z.min end_year (current_year - 1)) r).
    { unfold in_year_range, before_year, year_ge, year_le, year_lt, dt_year.
      destruct (Date r) as [t |]; cbn; [| reflexivity].
      destruct (Z.leb_spec start_year (year t)), (Z.leb_spec (year t) e),
        (Z.ltb_spec (year t) current_year),
        (Z.leb_spec (year t) (Z.min end_year (current_year - 1))); cbn; lia. }
    destruct (in_year_range start_year e r) eqn:Hin; cbn [andb] in Hr.
    - cbn [List.filter]. rewrite Hr, IH.
      destruct (in_year_range start_year _ r); reflexivity.
    - rewrite <- Hr. exact IH. }
  split; [| apply Hcut; now left].
  unfold aggregate, aggregate_sorted_groups, grouped_frame.
  rewrite !Hcut by auto. reflexivity.
Qed.

(** * The branches of the script that compute nothing *)

Lemma date_min_undated (rows : list Row) :
  (forall r, In r rows -> Date r = None) -> date_min (map Date rows) = None.
Proof.
  intros Hall. pose proof (date_min_spec (map Date rows)) as H.
  destruct (date_min (map Date rows)) as [m |]; [| reflexivity].
  destruct H as [Hin _]. apply in_map_iff in Hin as (r & Hr & Hin).
  rewrite (Hall r Hin) in Hr. discriminate.
Qed.

(** X13.  For a company whose frame has rows but no date among them, the
    first date is NaT, its year is NaN, and the script stops with TypeError
    at the slider, the store as it was. *)
Theorem undated_frame_raises
    (data_frequency : Frequency) (select_slider : Z -> Z -> Z * Z) (current_year : Z)
    (st : state) (name : string) (l : loc) (rows : list Row) :
  company_data_var st !! name = Some l ->
  heap st !! l = Some (OCompany rows) ->
  rows <> [] ->
  (forall r, In r rows -> Date r = None) ->
  render (Some name) data_frequency select_slider current_year st
  = (inl (PyExn TypeError), st).
Proof.
  intros Hname Hl Hne Hundated.
  unfold render, bind, lookup_company, read_company, bind, read.
  rewrite Hname, Hl. cbn [ret]. destruct rows as [| r rows]; [congruence |].
  rewrite date_min_undated by exact Hundated. reflexivity.
Qed.

Lemma undated_frame_raises_witness :
  render (Some "X"%string) Quarterly default_slider 2026 state_undated
  = (inl (PyExn TypeError), state_undated).
Proof.
  refine (undated_frame_raises Quarterly default_slider 2026 state_undated
            "X"%string 1%positive
            [obs None (F64.of_Z 2) (F64.of_Z 20)] _ _ _ _).
  - vm_compute. reflexivity.
  - vm_compute. reflexivity.
  - discriminate.
  - intros r [<- | []]. reflexivity.
Defined.

(** X14.  From the loader to the charts: for a company of the dictionary
    whose frame has a dated row, the script run on the loaded store returns
    the aggregated frame and the growth frame of that company's frame, for
    the years the slider gives on the frame's first and last year. *)
Theorem script_runs_the_pipeline
    (blocks : list Block) (name : string) (rows : list Row)
    (data_frequency : Frequency) (select_slider : Z -> Z -> Z * Z) (current_year : Z)
    (min_date max_date : Timestamp) :
  company_data blocks !! name = Some rows ->
  date_min (map Date rows) = Some min_date ->
  date_max (map Date rows) = Some max_date ->
  fst (render (Some name) data_frequency select_slider current_year
         (snd (store_blocks blocks empty_state)))
  = inr (Some (let '(start_year, end_year) :=
                 select_slider (year min_date) (year max_date) in
               let aggregated_df :=
                 aggregate data_frequency current_year start_year end_year rows in
               (aggregated_df, growth aggregated_df))).
Proof.
  intros Hname Hmin Hmax.
  destruct (load_company_data blocks name rows Hname) as (l & Hvar & Hheap).
  assert (Hne : rows <> []) by (intros ->; discriminate Hmin).
  destruct (render_computes name l rows data_frequency select_slider current_year
              min_date max_date Hne Hmin Hmax
              (snd (store_blocks blocks empty_state)) (conj Hvar Hheap))
    as (a & st' & Hrun & ->).
  rewrite Hrun. reflexivity.
Qed.

Lemma script_runs_the_pipeline_witness :
  fst (render (Some "X"%string) Quarterly default_slider 2026 state_X)
  = inr (Some (aggregate Quarterly 2026 2021 2021 series_X,
               growth (aggregate Quarterly 2026 2021 2021 series_X))).
Proof.
  exact (script_runs_the_pipeline
           [mkBlock "X"%string [0; 1; 2]%nat series_X] "X"%string series_X
           Quarterly default_slider 2026
           (mkTimestamp 2021 3 15 0) (mkTimestamp 2021 6 15 0)
           eq_refl eq_refl eq_refl).
Defined.

Lemma aggregate_nil
    (data_frequency : Frequency) (current_year start_year end_year : Z)
    (company_df : list Row) :
  (forall r t, In r company_df -> Date r = Some t ->
               start_year <= year t <= end_year ->
               data_frequency = Annual /\ current_year <= year t) ->
  aggregate data_frequency current_year start_year end_year company_df = [].
Proof.
  intros Hout.
  destruct (aggregate data_frequency current_year start_year end_year company_df)
    as [| a l] eqn:Ha; [reflexivity |]. exfalso.
  assert (Hin : In a (aggregate data_frequency current_year start_year end_year
                        company_df)) by (rewrite Ha; now left).
  apply aggregate_In in Hin as [Hne _].
  destruct (period_group data_frequency current_year start_year end_year company_df
              (Period a)) as [| r g] eqn:Hg; [congruence |].
  assert (Hr : In r (period_group data_frequency current_year start_year end_year
                       company_df (Period a))) by (rewrite Hg; now left).
  apply period_group_In in Hr as (Hdf & Hrange & Hbefore & _).
  apply in_year_range_spec in Hrange as (t & Ht & Hy).
  destruct (Hout r t Hdf Ht Hy) as [Hannual Hlate].
  apply Hbefore, before_year_spec in Hannual as (t' & Ht' & Hlt).
  assert (t' = t) by congruence. subst t'. lia.
Qed.

(** X8.  For a company of the dictionary with a dated row: when the range
    the slider returns holds no dated observation, or, under Annual, only
    observations of the current year or later, the script returns an empty
    aggregated frame and an empty growth frame, and raises nothing. *)
Theorem empty_selection_gives_empty_frames
    (blocks : list Block) (name : string) (rows : list Row)
    (data_frequency : Frequency) (select_slider : Z -> Z -> Z * Z) (current_year : Z)
    (min_date max_date : Timestamp) :
  company_data blocks !! name = Some rows ->
  date_min (map Date rows) = Some min_date ->
  date_max (map Date rows) = Some max_date ->
  (forall r t,
      In r rows -> Date r = Some t ->
      fst (select_slider (year min_date) (year max_date)) <= year t
      <= snd (select_slider (year min_date) (year max_date)) ->
      data_frequency = Annual /\ current_year <= year t) ->
  fst (render (Some name) data_frequency select_slider current_year
         (snd (store_blocks blocks empty_state)))
  = inr (Some ([], [])).
Proof.
  intros Hname Hmin Hmax Hout.
  destruct (load_company_data blocks name rows Hname) as (l & Hvar & Hheap).
  assert (Hne : rows <> []) by (intros ->; discriminate Hmin).
  destruct (render_computes name l rows data_frequency select_slider current_year
              min_date max_date Hne Hmin Hmax
              (snd (store_blocks blocks empty_state)) (conj Hvar Hheap))
    as (a & st' & Hrun & ->).
  rewrite Hrun. cbn [fst].
  destruct (select_slider (year min_date) (year max_date)) as [start_year end_year].
  cbn [fst snd] in Hout. rewrite aggregate_nil by exact Hout. reflexivity.
Qed.

Lemma empty_selection_gives_empty_frames_witness :
  fst (render (Some "X"%string) Annual default_slider 2023
         (snd (store_blocks [mkBlock "X"%string [0; 1; 2]%nat series_gap] empty_state)))
  = inr (Some ([], [])).
Proof.
  refine (empty_selection_gives_empty_frames
            [mkBlock "X"%string [0; 1; 2]%nat series_gap] "X"%string series_gap
            Annual default_slider 2023
            (mkTimestamp 2023 1 1 0) (mkTimestamp 2023 3 30 0)
            eq_refl eq_refl eq_refl _).
  intros r t _ _ Hrange. cbn in Hrange. split; [reflexivity | lia].
Defined.

(** * Growth on columns without a null *)

Lemma pad_from_id (prev : float) (xs : list float) :
  List.Forall (fun x => F64.is_nan x = false) xs -> pad_from prev xs = xs.
Proof.
  intros Hall. revert prev. induction Hall as [| x t Hx _ IH]; intros prev; cbn.
  - reflexivity.
  - rewrite Hx, IH. reflexivity.
Qed.

Lemma first_row_has_no_growth (df : list AggRow) (g0 : GrowthRow) (rest : list GrowthRow) :
  add_growth df = g0 :: rest -> has_growth (replace_inf_row g0) = false.
Proof.
  intros Hadd. pose proof (add_growth_lookup df 0) as H0. rewrite Hadd in H0.
  destruct df as [| a t]; [discriminate H0 |].
  rewrite !growth_rate_lookup_0 in H0 by discriminate.
  cbn in H0. injection H0 as ->. reflexivity.
Qed.

Lemma add_growth_points (df : list AggRow) : map point (add_growth df) = df.
Proof.
  apply list_eq. intros k. rewrite list_lookup_fmap, add_growth_lookup.
  destruct (df !! k) as [a |] eqn:Ha; [| reflexivity].
  assert (Hk : (k < List.length df)%nat) by (eapply lookup_lt_Some; eauto).
  destruct (lookup_lt_is_Some_2 (growth_rate (map agg_EPS df)) k) as [e ->].
  { rewrite length_growth_rate, length_map. exact Hk. }
  destruct (lookup_lt_is_Some_2 (growth_rate (map agg_SharePrice df)) k) as [p ->].
  { rewrite length_growth_rate, length_map. exact Hk. }
  reflexivity.
Qed.

Lemma filter_map_sublist {A B} (p : A -> bool) (f : A -> B) (l : list A) :
  map f (List.filter p l) `sublist_of` map f l.
Proof.
  induction l as [| x l IH]; cbn; [constructor |].
  destruct (p x); cbn; now constructor.
Qed.

(** X15.  On an aggregated frame without a null EPS or share price the
    padding changes nothing: a growth point is emitted for a row exactly
    when both growth rates over the row before it are finite. *)
Theorem growth_without_nulls (aggregated_df : list AggRow) :
  (forall a, In a aggregated_df ->
             F64.is_nan (agg_EPS a) = false /\ F64.is_nan (agg_SharePrice a) = false) ->
  padded_EPS aggregated_df = map agg_EPS (growth_base aggregated_df)
  /\ padded_SharePrice aggregated_df = map agg_SharePrice (growth_base aggregated_df)
  /\ forall g,
      In g (growth aggregated_df) <->
      exists k prev curr,
        growth_base aggregated_df !! k = Some prev
        /\ growth_base aggregated_df !! S k = Some curr
        /\ F64.is_finite (pct (agg_EPS prev) (agg_EPS curr)) = true
        /\ F64.is_finite (pct (agg_SharePrice prev) (agg_SharePrice curr)) = true
        /\ g = growth_point curr (pct (agg_EPS prev) (agg_EPS curr))
                 (pct (agg_SharePrice prev) (agg_SharePrice curr)).
Proof.
  intros Hvalid.
  assert (Hbase : forall a, In a (growth_base aggregated_df) ->
                    F64.is_nan (agg_EPS a) = false /\ F64.is_nan (agg_SharePrice a) = false).
  { intros a Ha. apply Hvalid. unfold growth_base in Ha. now apply sort_values_In in Ha. }
  assert (He : padded_EPS aggregated_df = map agg_EPS (growth_base aggregated_df)).
  { unfold padded_EPS, pad. apply pad_from_id, List.Forall_forall.
    intros x Hx. apply in_map_iff in Hx as (a & <- & Ha). now apply Hbase. }
  assert (Hp : padded_SharePrice aggregated_df
               = map agg_SharePrice (growth_base aggregated_df)).
  { unfold padded_SharePrice, pad. apply pad_from_id, List.Forall_forall.
    intros x Hx. apply in_map_iff in Hx as (a & <- & Ha). now apply Hbase. }
  split; [exact He |]. split; [exact Hp |].
  intros g. rewrite growth_In, He, Hp. split.
  - intros (k & curr & pe & ce & pp & cp & Hcurr & Hpe & Hce & Hpp & Hcp & Hfe & Hfp & ->).
    rewrite list_lookup_fmap in Hpe, Hce, Hpp, Hcp. rewrite Hcurr in Hce, Hcp.
    destruct (growth_base aggregated_df !! k) as [prev |] eqn:Hprev; [| discriminate].
    cbn in Hpe, Hce, Hpp, Hcp.
    injection Hpe as <-. injection Hce as <-. injection Hpp as <-. injection Hcp as <-.
    exists k, prev, curr. repeat split; assumption.
  - intros (k & prev & curr & Hprev & Hcurr & Hfe & Hfp & ->).
    exists k, curr, (agg_EPS prev), (agg_EPS curr), (agg_SharePrice prev),
      (agg_SharePrice curr).
    rewrite !list_lookup_fmap, Hprev, Hcurr. cbn. repeat split; assumption.
Qed.

Lemma growth_without_nulls_witness :
  padded_EPS (aggregate Quarterly 2026 2021 2021 series_X)
  = map agg_EPS (growth_base (aggregate Quarterly 2026 2021 2021 series_X)).
Proof.
  refine (proj1 (growth_without_nulls (aggregate Quarterly 2026 2021 2021 series_X) _)).
  intros a Ha. vm_compute in Ha.
  destruct Ha as [<- | [<- | []]]; split; reflexivity.
Defined.

(** X16.  The growth frame keeps the order of the aggregated frame and never
    has a row for its first period: its periods are a subsequence of the
    periods after the first. *)
Theorem growth_keeps_order (aggregated_df : list AggRow) :
  map (fun g => Period (point g)) (growth aggregated_df)
  `sublist_of` tail (map Period (growth_base aggregated_df)).
Proof.
  unfold growth. fold (growth_base aggregated_df).
  pose proof (add_growth_points (growth_base aggregated_df)) as Hpoints.
  destruct (add_growth (growth_base aggregated_df)) as [| g0 rest] eqn:Hadd.
  - cbn. apply sublist_nil_l.
  - cbn [map List.filter]. rewrite (first_row_has_no_growth _ _ _ Hadd).
    rewrite <- Hpoints. cbn [map tail].
    rewrite map_map.
    replace (map (fun x => Period (point x)) rest)
      with (map (fun g => Period (point g)) (map replace_inf_row rest))
      by (rewrite map_map; reflexivity).
    apply filter_map_sublist.
Qed.

(** * The passes of the loop *)

Lemma scan_more_fuel
    (parse_datetime : list cell -> cell -> option Timestamp)
    (parse_float : string -> option float) (df : RawGrid) (fuel : nat) :
  forall i acc r,
    scan parse_datetime parse_float fuel df i acc = Some r ->
    forall extra, scan parse_datetime parse_float (fuel + extra) df i acc = Some r.
Proof.
  induction fuel as [| fuel IH]; intros i acc r Hscan extra.
  - cbn [scan] in Hscan. destruct (num_columns df <=? i)%nat eqn:Hend; [| discriminate].
    destruct extra; cbn [Nat.add scan]; rewrite Hend; exact Hscan.
  - cbn [Nat.add scan] in Hscan |- *.
    destruct (num_columns df <=? i)%nat; [exact Hscan |].
    destruct (is_blank (nth i (columns df) None)); [now apply IH |].
    destruct (rename3 _ _); [now apply IH | exact Hscan].
Qed.

(** X17.  The loop of the loader ends within [num_columns] passes, with the
    blocks or with ValueError, and more passes give the same outcome. *)
Theorem loader_loop_ends
    (parse_datetime : list cell -> cell -> option Timestamp)
    (parse_float : string -> option float) (df : RawGrid) :
  exists r,
    split_blocks parse_datetime parse_float df = Some r
    /\ (r = Raise ValueError \/ exists blocks, r = Ok blocks)
    /\ forall fuel, (num_columns df <= fuel)%nat ->
                    scan parse_datetime parse_float fuel df 0%nat [] = Some r.
Proof.
  pose proof (split_blocks_total parse_datetime parse_float df) as Htotal.
  destruct (split_blocks parse_datetime parse_float df) as [r |] eqn:Hr.
  - exists r. split; [reflexivity |]. split.
    + destruct r as [blocks | e]; [right; eauto |]. left.
      cbn in Htotal. destruct (blocks_fit _ _); congruence.
    + intros fuel Hfuel.
      replace fuel with (num_columns df + (fuel - num_columns df))%nat by lia.
      now apply scan_more_fuel.
  - cbn in Htotal. destruct (blocks_fit _ _); discriminate.
Qed.

Lemma loader_loop_ends_witness :
  scan sample_parse_datetime sample_parse_float 100 grid_AB 0%nat []
  = split_blocks sample_parse_datetime sample_parse_float grid_AB.
Proof.
  destruct (loader_loop_ends sample_parse_datetime sample_parse_float grid_AB)
    as (r & Hr & _ & Hfuel).
  rewrite Hr. apply Hfuel. cbn. lia.
Defined.
